(** * n8n workflow importer (n8n-setup-scripts/import-to-db.py)

    A shallow embedding of the importer script and of the parts of the
    Python runtime it calls: the [json] module ([json.load], [json.dumps]),
    [sqlite3] parameter binding and insertion, [os.path.exists],
    [Path.glob], [sorted], [datetime.now] and [print].

    Conventions.
    - A Python [str] is a sequence of code points: [text := list Z].
    - The value returned by [json.load] is a [pyval]; a [dict] keeps its
      insertion order, so it is an association list with distinct keys.
    - The [json] decoder follows CPython's scanner (json/scanner.py,
      json/decoder.py and their C accelerator, which is strict about hex
      digits and ASCII digits).
    - Floating point is outside the embedding: a number literal with a
      fraction or an exponent, and the constants NaN, Infinity and
      -Infinity, make the decoder answer [PFloat]; a run that meets one is
      [Unmodelled], and no theorem speaks about it.
    - Resource limits of the interpreter (recursion depth, the limit on
      the digits of an int, memory) and failures of the console encoding
      are not modelled. *)

From Stdlib Require Import ZArith List Bool Lia String Ascii.
From Stdlib Require Import DecimalFacts DecimalPos DecimalN DecimalZ.
From Stdlib Require Import Sorting.Sorted Sorting.Permutation.
Import ListNotations.
Local Open Scope Z_scope.

(* ================================================================== *)
(** ** Text *)

Definition text := list Z.

(** The code points of an ASCII literal of the script. *)
Definition str (s : string) : text :=
  map (fun a => Z.of_N (N_of_ascii a)) (list_ascii_of_string s).

Abbreviation c_quote := 34%Z (only parsing).
Abbreviation c_backslash := 92%Z (only parsing).
Abbreviation c_slash := 47%Z (only parsing).
Abbreviation c_comma := 44%Z (only parsing).
Abbreviation c_colon := 58%Z (only parsing).
Abbreviation c_space := 32%Z (only parsing).
Abbreviation c_minus := 45%Z (only parsing).
Abbreviation c_plus := 43%Z (only parsing).
Abbreviation c_dot := 46%Z (only parsing).
Abbreviation c_zero := 48%Z (only parsing).
Abbreviation c_lbracket := 91%Z (only parsing).
Abbreviation c_rbracket := 93%Z (only parsing).
Abbreviation c_lbrace := 123%Z (only parsing).
Abbreviation c_rbrace := 125%Z (only parsing).
Abbreviation c_u := 117%Z (only parsing).

Fixpoint text_eqb (a b : text) : bool :=
  match a, b with
  | [], [] => true
  | x :: a', y :: b' => (x =? y) && text_eqb a' b'
  | _, _ => false
  end.

(** [str.startswith] *)
Fixpoint startswith (p s : text) : bool :=
  match p, s with
  | [], _ => true
  | x :: p', y :: s' => (x =? y) && startswith p' s'
  | _ :: _, [] => false
  end.

(** [str.endswith] *)
Definition endswith (p s : text) : bool := startswith (rev p) (rev s).

(** Python's [<=] on [str]: lexicographic on code points. *)
Fixpoint text_leb (a b : text) : bool :=
  match a, b with
  | [], _ => true
  | _ :: _, [] => false
  | x :: a', y :: b' => (x <? y) || ((x =? y) && text_leb a' b')
  end.

(** Unicode ranges. *)
Definition is_high_surrogate (c : Z) : bool := (0xd800 <=? c) && (c <=? 0xdbff).
Definition is_low_surrogate (c : Z) : bool := (0xdc00 <=? c) && (c <=? 0xdfff).
Definition is_surrogate (c : Z) : bool := (0xd800 <=? c) && (c <=? 0xdfff).
Definition is_code_point (c : Z) : bool := (0 <=? c) && (c <=? 0x10ffff).
(** A Unicode scalar value: what decoding a text file yields. *)
Definition is_scalar (c : Z) : bool := is_code_point c && negb (is_surrogate c).

(* ================================================================== *)
(** ** Python values produced by [json.load] *)

Unset Elimination Schemes.
Inductive pyval : Type :=
| VNone
| VBool (b : bool)
| VInt (z : Z)
| VStr (s : text)
| VList (l : list pyval)
| VDict (d : list (text * pyval)).
Set Elimination Schemes.

Definition dict := list (text * pyval).

(** [d.get(key)], as an option. *)
Fixpoint dict_lookup (k : text) (d : dict) : option pyval :=
  match d with
  | [] => None
  | (k', v) :: d' => if text_eqb k k' then Some v else dict_lookup k d'
  end.

(** [d[key] = v]: an existing key keeps its place, a new one goes last. *)
Fixpoint dict_set (k : text) (v : pyval) (d : dict) : dict :=
  match d with
  | [] => [(k, v)]
  | (k', v') :: d' =>
      if text_eqb k k' then (k', v) :: d' else (k', v') :: dict_set k v d'
  end.

(** [dict.get(key, default)] *)
Definition dict_get (d : dict) (k : text) (default : pyval) : pyval :=
  match dict_lookup k d with
  | Some v => v
  | None => default
  end.

(** Truth value of an object ([1 if active else 0]). *)
Definition truthy (v : pyval) : bool :=
  match v with
  | VNone => false
  | VBool b => b
  | VInt z => negb (z =? 0)
  | VStr s => match s with [] => false | _ => true end
  | VList l => match l with [] => false | _ => true end
  | VDict d => match d with [] => false | _ => true end
  end.

(* ================================================================== *)
(** ** json.dumps (json/encoder.py, default arguments) *)

(** ["0123456789abcdef"[n]] *)
Definition hex_digit (n : Z) : Z := if n <? 10 then 48 + n else 87 + n.

(** ['\\u{0:04x}'.format(n)] *)
Definition u_escape (n : Z) : text :=
  [c_backslash; c_u;
   hex_digit (n / 4096 mod 16); hex_digit (n / 256 mod 16);
   hex_digit (n / 16 mod 16); hex_digit (n mod 16)].

(** ESCAPE_ASCII: a backslash, a double quote, or anything outside the
    printable ASCII range from space to tilde. *)
Definition needs_escape (c : Z) : bool :=
  (c =? c_backslash) || (c =? c_quote) || negb ((32 <=? c) && (c <=? 126)).

(** [replace] of [py_encode_basestring_ascii]: ESCAPE_DCT first, then the
    \u form, with a surrogate pair above the basic plane. *)
Definition escape_char (c : Z) : text :=
  if c =? c_backslash then [c_backslash; c_backslash]
  else if c =? c_quote then [c_backslash; c_quote]
  else if c =? 8 then [c_backslash; 98]
  else if c =? 12 then [c_backslash; 102]
  else if c =? 10 then [c_backslash; 110]
  else if c =? 13 then [c_backslash; 114]
  else if c =? 9 then [c_backslash; 116]
  else if c <? 0x10000 then u_escape c
  else
    let n := c - 0x10000 in
    let s1 := Z.lor 0xd800 (Z.land (Z.shiftr n 10) 0x3ff) in
    let s2 := Z.lor 0xdc00 (Z.land n 0x3ff) in
    u_escape s1 ++ u_escape s2.

Definition encode_char (c : Z) : text :=
  if needs_escape c then escape_char c else [c].

Definition py_encode_basestring_ascii (s : text) : text :=
  c_quote :: flat_map encode_char s ++ [c_quote].

(** [int.__repr__]: the decimal numeral. *)
Fixpoint uint_chars (u : Decimal.uint) : text :=
  match u with
  | Decimal.Nil => []
  | Decimal.D0 u' => 48 :: uint_chars u'
  | Decimal.D1 u' => 49 :: uint_chars u'
  | Decimal.D2 u' => 50 :: uint_chars u'
  | Decimal.D3 u' => 51 :: uint_chars u'
  | Decimal.D4 u' => 52 :: uint_chars u'
  | Decimal.D5 u' => 53 :: uint_chars u'
  | Decimal.D6 u' => 54 :: uint_chars u'
  | Decimal.D7 u' => 55 :: uint_chars u'
  | Decimal.D8 u' => 56 :: uint_chars u'
  | Decimal.D9 u' => 57 :: uint_chars u'
  end.

Definition int_repr (z : Z) : text :=
  match Z.to_int z with
  | Decimal.Pos u => uint_chars u
  | Decimal.Neg u => c_minus :: uint_chars u
  end.

(** [sep.join(chunks)] *)
Fixpoint join (sep : text) (chunks : list text) : text :=
  match chunks with
  | [] => []
  | [c] => c
  | c :: cs => c ++ sep ++ join sep cs
  end.

Definition item_separator : text := [c_comma; c_space].
Definition key_separator : text := [c_colon; c_space].

Fixpoint json_dumps (v : pyval) : text :=
  match v with
  | VNone => str "null"
  | VBool true => str "true"
  | VBool false => str "false"
  | VInt z => int_repr z
  | VStr s => py_encode_basestring_ascii s
  | VList l =>
      c_lbracket :: join item_separator (map json_dumps l) ++ [c_rbracket]
  | VDict d =>
      c_lbrace ::
        join item_separator
          (map (fun kv => py_encode_basestring_ascii (fst kv)
                          ++ key_separator ++ json_dumps (snd kv)) d)
        ++ [c_rbrace]
  end.

(* ================================================================== *)
(** ** json.loads (json/scanner.py, json/decoder.py) *)

Inductive presult (A : Type) : Type :=
| POk (a : A) (rest : text)   (* a value and the text after it *)
| PErr                        (* JSONDecodeError *)
| PFloat                      (* a float literal: outside the embedding *)
| PFuel.                      (* recursion budget of the model exhausted *)
Arguments POk {A} a rest.
Arguments PErr {A}.
Arguments PFloat {A}.
Arguments PFuel {A}.

Definition pbind {A B : Type} (r : presult A) (k : A -> text -> presult B)
  : presult B :=
  match r with
  | POk a rest => k a rest
  | PErr => PErr
  | PFloat => PFloat
  | PFuel => PFuel
  end.

(** WHITESPACE = [ \t\n\r]* *)
Definition is_ws (c : Z) : bool :=
  (c =? c_space) || (c =? 9) || (c =? 10) || (c =? 13).

Fixpoint skip_ws (s : text) : text :=
  match s with
  | c :: r => if is_ws c then skip_ws r else s
  | [] => []
  end.

Definition is_digit (c : Z) : bool := (48 <=? c) && (c <=? 57).

(** Value of one hex digit of a \uXXXX escape. *)
Definition hexval (c : Z) : option Z :=
  if is_digit c then Some (c - 48)
  else if (97 <=? c) && (c <=? 102) then Some (c - 87)
  else if (65 <=? c) && (c <=? 70) then Some (c - 55)
  else None.

(** [_decode_uXXXX] on the four characters after the u. *)
Definition hex4 (a b c d : Z) : option Z :=
  match hexval a, hexval b, hexval c, hexval d with
  | Some x, Some y, Some z, Some w => Some (((x * 16 + y) * 16 + z) * 16 + w)
  | _, _, _, _ => None
  end.

(** BACKSLASH: the one-letter escapes. *)
Definition unescape (e : Z) : option Z :=
  if e =? c_quote then Some c_quote
  else if e =? c_backslash then Some c_backslash
  else if e =? c_slash then Some c_slash
  else if e =? 98 then Some 8
  else if e =? 102 then Some 12
  else if e =? 110 then Some 10
  else if e =? 114 then Some 13
  else if e =? 116 then Some 9
  else None.

Definition join_surrogates (uni uni2 : Z) : Z :=
  0x10000 + Z.lor (Z.shiftl (uni - 0xd800) 10) (uni2 - 0xdc00).

Definition pcons (c : Z) (r : presult text) : presult text :=
  pbind r (fun s rest => POk (c :: s) rest).

(** [scanstring(s, end, strict=True)]: [s] is the text after the opening
    quote; the result is the decoded string and the text after the
    closing quote. *)
Fixpoint scanstring (s : text) : presult text :=
  match s with
  | [] => PErr                                   (* unterminated string *)
  | c :: r =>
      if c =? c_quote then POk [] r
      else if c =? c_backslash then
        match r with
        | [] => PErr                             (* unterminated string *)
        | e :: r1 =>
            if e =? c_u then
              match r1 with
              | h1 :: h2 :: h3 :: h4 :: r2 =>
                  match hex4 h1 h2 h3 h4 with
                  | None => PErr                 (* invalid \uXXXX escape *)
                  | Some uni =>
                      match r2 with
                      | bs :: u :: g1 :: g2 :: g3 :: g4 :: r4 =>
                          if is_high_surrogate uni
                             && (bs =? c_backslash) && (u =? c_u)
                          then
                            match hex4 g1 g2 g3 g4 with
                            | None => PErr
                            | Some uni2 =>
                                if is_low_surrogate uni2
                                then pcons (join_surrogates uni uni2)
                                           (scanstring r4)
                                else pcons uni (scanstring r2)
                            end
                          else pcons uni (scanstring r2)
                      | _ => pcons uni (scanstring r2)
                      end
                  end
              | _ => PErr                        (* invalid \uXXXX escape *)
              end
            else
              match unescape e with
              | Some ch => pcons ch (scanstring r1)
              | None => PErr                     (* invalid \escape *)
              end
        end
      else if c <=? 0x1f then PErr               (* control character *)
      else pcons c (scanstring r)
  end.

(** The digits of NUMBER_RE. *)
Fixpoint span_digits (s : text) : text * text :=
  match s with
  | c :: r =>
      if is_digit c
      then let (ds, r') := span_digits r in (c :: ds, r')
      else ([], s)
  | [] => ([], [])
  end.

Definition digit_uint (c : Z) (u : Decimal.uint) : Decimal.uint :=
  if c =? 48 then Decimal.D0 u
  else if c =? 49 then Decimal.D1 u
  else if c =? 50 then Decimal.D2 u
  else if c =? 51 then Decimal.D3 u
  else if c =? 52 then Decimal.D4 u
  else if c =? 53 then Decimal.D5 u
  else if c =? 54 then Decimal.D6 u
  else if c =? 55 then Decimal.D7 u
  else if c =? 56 then Decimal.D8 u
  else Decimal.D9 u.

Fixpoint digits_uint (ds : text) : Decimal.uint :=
  match ds with
  | [] => Decimal.Nil
  | c :: r => digit_uint c (digits_uint r)
  end.

(** [int(integer)] on the text matched by the first group of NUMBER_RE. *)
Definition parse_int (neg : bool) (ds : text) : Z :=
  Z.of_int (if neg then Decimal.Neg (digits_uint ds)
            else Decimal.Pos (digits_uint ds)).

(** The fraction group of NUMBER_RE matches: a dot and a digit. *)
Definition starts_frac (r : text) : bool :=
  match r with
  | p :: d :: _ => (p =? c_dot) && is_digit d
  | _ => false
  end.

(** The exponent group of NUMBER_RE matches: e or E, an optional sign,
    a digit. *)
Definition starts_exp (r : text) : bool :=
  match r with
  | e :: r1 =>
      ((e =? 101) || (e =? 69))
      && match r1 with
         | sg :: r2 =>
             if (sg =? c_plus) || (sg =? c_minus)
             then match r2 with d :: _ => is_digit d | [] => false end
             else is_digit sg
         | [] => false
         end
  | [] => false
  end.

Definition number_result (neg : bool) (ds r : text) : presult pyval :=
  if starts_frac r || starts_exp r then PFloat
  else POk (VInt (parse_int neg ds)) r.

(** The integer part of NUMBER_RE: 0, or a digit run that does not
    start with 0. *)
Definition match_digits (neg : bool) (s1 : text) : presult pyval :=
  match s1 with
  | [] => PErr
  | c :: r =>
      if (49 <=? c) && (c <=? 57) then
        let (ds, r') := span_digits r in number_result neg (c :: ds) r'
      else if c =? c_zero then number_result neg [c] r
      else PErr
  end.

(** [match_number]: an optional minus, then the digits. *)
Definition match_number (s : text) : presult pyval :=
  match s with
  | c :: r => if c =? c_minus then match_digits true r else match_digits false s
  | [] => PErr
  end.

(** [scan_once], [JSONObject] and [JSONArray]; the loops of the last two
    are [parse_object_loop] and [parse_array_loop]. *)
Fixpoint scan_once (fuel : nat) (s : text) {struct fuel} : presult pyval :=
  match fuel with
  | O => PFuel
  | S fuel' =>
      match s with
      | [] => PErr                               (* expecting value *)
      | c :: r =>
          if c =? c_quote then
            pbind (scanstring r) (fun k rest => POk (VStr k) rest)
          else if c =? c_lbrace then
            match skip_ws r with
            | c' :: r' =>
                if c' =? c_rbrace then POk (VDict []) r'
                else parse_object_loop fuel' (c' :: r') []
            | [] => PErr
            end
          else if c =? c_lbracket then
            match skip_ws r with
            | c' :: r' =>
                if c' =? c_rbracket then POk (VList []) r'
                else parse_array_loop fuel' (c' :: r') []
            | [] => PErr
            end
          else if startswith (str "null") s then POk VNone (skipn 4 s)
          else if startswith (str "true") s then POk (VBool true) (skipn 4 s)
          else if startswith (str "false") s then POk (VBool false) (skipn 5 s)
          else if startswith (str "NaN") s then PFloat
          else if startswith (str "Infinity") s then PFloat
          else if startswith (str "-Infinity") s then PFloat
          else match_number s
      end
  end

with parse_object_loop (fuel : nat) (s : text) (d : dict) {struct fuel}
  : presult pyval :=
  match fuel with
  | O => PFuel
  | S fuel' =>
      match s with
      | [] => PErr
      | c :: r =>
          if c =? c_quote then                   (* read key *)
            pbind (scanstring r) (fun key r1 =>
              match skip_ws r1 with
              | c1 :: r2 =>
                  if c1 =? c_colon then
                    pbind (scan_once fuel' (skip_ws r2)) (fun val r3 =>
                      let d' := dict_set key val d in
                      match skip_ws r3 with
                      | c3 :: r4 =>
                          if c3 =? c_rbrace then POk (VDict d') r4
                          else if c3 =? c_comma
                          then parse_object_loop fuel' (skip_ws r4) d'
                          else PErr              (* expecting , delimiter *)
                      | [] => PErr
                      end)
                  else PErr                      (* expecting : delimiter *)
              | [] => PErr
              end)
          else PErr                              (* expecting property name *)
      end
  end

with parse_array_loop (fuel : nat) (s : text) (acc : list pyval) {struct fuel}
  : presult pyval :=
  match fuel with
  | O => PFuel
  | S fuel' =>
      pbind (scan_once fuel' s) (fun val r1 =>
        match skip_ws r1 with
        | c :: r2 =>
            if c =? c_rbracket then POk (VList (acc ++ [val])) r2
            else if c =? c_comma
            then parse_array_loop fuel' (skip_ws r2) (acc ++ [val])
            else PErr                            (* expecting , delimiter *)
        | [] => PErr
        end)
  end.

(** [json.loads(s)]: no BOM, one value between optional whitespace,
    nothing after it. *)
Definition json_loads (s : text) : presult pyval :=
  if startswith [0xfeff] s then PErr
  else
    pbind (scan_once (S (2 * List.length s)) (skip_ws s)) (fun v rest =>
      match skip_ws rest with
      | [] => POk v []
      | _ :: _ => PErr                           (* extra data *)
      end).

(* ================================================================== *)
(** ** Well-formed values *)

Fixpoint no_surrogate_pair (s : text) : bool :=
  match s with
  | c :: r =>
      match r with
      | c2 :: _ => negb (is_high_surrogate c && is_low_surrogate c2)
      | [] => true
      end && no_surrogate_pair r
  | [] => true
  end.

(** A string as the decoder builds them: code points, and never a high
    surrogate directly before a low one (the decoder joins such a pair). *)
Definition wf_str (s : text) : bool :=
  forallb is_code_point s && no_surrogate_pair s.

Fixpoint distinct (ks : list text) : bool :=
  match ks with
  | [] => true
  | k :: r => negb (existsb (text_eqb k) r) && distinct r
  end.

Fixpoint wf_val (v : pyval) : bool :=
  match v with
  | VNone | VBool _ | VInt _ => true
  | VStr s => wf_str s
  | VList l => forallb wf_val l
  | VDict d =>
      forallb (fun kv => wf_str (fst kv) && wf_val (snd kv)) d
      && distinct (map fst d)
  end.

(** Fuel that [scan_once] needs on the serialization of a value. *)
Fixpoint size (v : pyval) : nat :=
  match v with
  | VList l => 2 + list_sum (map size l)
  | VDict d => 2 + list_sum (map (fun kv => size (snd kv)) d)
  | _ => 1
  end.

Section PyvalInduction.
Variable P : pyval -> Prop.
Hypothesis HNone : P VNone.
Hypothesis HBool : forall b, P (VBool b).
Hypothesis HInt : forall z, P (VInt z).
Hypothesis HStr : forall s, P (VStr s).
Hypothesis HList : forall l, Forall P l -> P (VList l).
Hypothesis HDict : forall d, Forall (fun kv => P (snd kv)) d -> P (VDict d).

Fixpoint pyval_nested_ind (v : pyval) : P v :=
  match v with
  | VNone => HNone
  | VBool b => HBool b
  | VInt z => HInt z
  | VStr s => HStr s
  | VList l =>
      HList l
        ((fix go (l : list pyval) : Forall P l :=
            match l with
            | [] => Forall_nil _
            | x :: r => Forall_cons _ (pyval_nested_ind x) (go r)
            end) l)
  | VDict d =>
      HDict d
        ((fix go (d : list (text * pyval))
            : Forall (fun kv => P (snd kv)) d :=
            match d with
            | [] => Forall_nil _
            | kv :: r => Forall_cons _ (pyval_nested_ind (snd kv)) (go r)
            end) d)
  end.
End PyvalInduction.

(* ================================================================== *)
(** ** Facts about text and characters *)

Ltac zb :=
  repeat (match goal with
          | |- context [(?a =? ?b)] => destruct (Z.eqb_spec a b)
          | |- context [(?a <=? ?b)] => destruct (Z.leb_spec a b)
          | |- context [(?a <? ?b)] => destruct (Z.ltb_spec a b)
          end; try lia; cbn [andb orb negb]).

Lemma text_eqb_eq (a b : text) : text_eqb a b = true <-> a = b.
Proof.
  revert b; induction a as [|x a IH]; intros [|y b]; simpl;
    try (split; [discriminate | congruence]); try tauto.
  rewrite andb_true_iff, Z.eqb_eq, IH. split.
  - intros [-> ->]; reflexivity.
  - intros H; injection H; auto.
Qed.

Lemma text_eqb_refl (a : text) : text_eqb a a = true.
Proof. apply text_eqb_eq; reflexivity. Qed.

Lemma text_eqb_neq (a b : text) : text_eqb a b = false <-> a <> b.
Proof.
  rewrite <- text_eqb_eq. destruct (text_eqb a b); split; congruence.
Qed.

Lemma hexval_hex_digit (n : Z) :
  0 <= n < 16 -> hexval (hex_digit n) = Some n.
Proof.
  intros H. unfold hexval, hex_digit, is_digit.
  destruct (Z.ltb_spec n 10); zb; f_equal; lia.
Qed.

Lemma hex4_u_escape (n : Z) :
  0 <= n < 65536 ->
  hex4 (hex_digit (n / 4096 mod 16)) (hex_digit (n / 256 mod 16))
       (hex_digit (n / 16 mod 16)) (hex_digit (n mod 16)) = Some n.
Proof.
  intros H. unfold hex4.
  rewrite !hexval_hex_digit by (apply Z.mod_pos_bound; lia).
  f_equal. Z.to_euclidean_division_equations. lia.
Qed.

Lemma lor_high_low (a b : Z) :
  0 <= b < 1024 -> Z.lor (a * 1024) b = a * 1024 + b.
Proof.
  intros H.
  assert (Hland : Z.land (a * 1024) b = 0);
    [| rewrite <- Z.lxor_lor, <- Z.add_nocarry_lxor by exact Hland; reflexivity].
  apply Z.bits_inj'. intros i Hi.
  rewrite Z.land_spec, Z.bits_0.
  destruct (Z.ltb_spec i 10).
  - change 1024 with (2 ^ 10). rewrite Z.mul_pow2_bits_low by lia. reflexivity.
  - rewrite (Z.bits_above_log2 b i), andb_false_r; [reflexivity | lia |].
    destruct (Z.eq_dec b 0) as [-> | Hb]; [simpl; lia |].
    apply Z.lt_le_trans with 10; [| lia].
    apply Z.log2_lt_pow2; simpl; lia.
Qed.

Section Surrogates.
Variable c : Z.
Hypothesis Hc : 0x10000 <= c <= 0x10ffff.
Let n := c - 0x10000.
Let s1 := Z.lor 0xd800 (Z.land (Z.shiftr n 10) 0x3ff).
Let s2 := Z.lor 0xdc00 (Z.land n 0x3ff).

Lemma surrogate_high_eq : s1 = 0xd800 + n / 1024.
Proof.
  unfold s1. change 0x3ff with (Z.ones 10).
  rewrite Z.land_ones, Z.shiftr_div_pow2 by lia.
  change (2 ^ 10) with 1024. change 0xd800 with (54 * 1024).
  rewrite lor_high_low by (apply Z.mod_pos_bound; lia).
  unfold n in *. Z.to_euclidean_division_equations. lia.
Qed.

Lemma surrogate_low_eq : s2 = 0xdc00 + n mod 1024.
Proof.
  unfold s2. change 0x3ff with (Z.ones 10).
  rewrite Z.land_ones by lia.
  change (2 ^ 10) with 1024. change 0xdc00 with (55 * 1024).
  rewrite lor_high_low by (apply Z.mod_pos_bound; lia). reflexivity.
Qed.

Lemma surrogate_high_range : 0xd800 <= s1 <= 0xdbff.
Proof.
  rewrite surrogate_high_eq. unfold n.
  Z.to_euclidean_division_equations. lia.
Qed.

Lemma surrogate_low_range : 0xdc00 <= s2 <= 0xdfff.
Proof.
  rewrite surrogate_low_eq. unfold n.
  Z.to_euclidean_division_equations. lia.
Qed.

Lemma join_surrogates_split : join_surrogates s1 s2 = c.
Proof.
  unfold join_surrogates.
  rewrite surrogate_high_eq, surrogate_low_eq.
  rewrite Z.shiftl_mul_pow2 by lia. change (2 ^ 10) with 1024.
  replace (0xd800 + n / 1024 - 0xd800) with (n / 1024) by lia.
  replace (0xdc00 + n mod 1024 - 0xdc00) with (n mod 1024) by lia.
  rewrite lor_high_low by (apply Z.mod_pos_bound; lia).
  unfold n. Z.to_euclidean_division_equations. lia.
Qed.
End Surrogates.

(* ================================================================== *)
(** ** Strings: the decoder inverts the encoder *)

(** The text starts with a \uXXXX escape that is not a valid code unit
    other than a low surrogate. *)
Definition low_escape_head (r : text) : bool :=
  match r with
  | bs :: u :: g1 :: g2 :: g3 :: g4 :: _ =>
      (bs =? c_backslash) && (u =? c_u)
      && match hex4 g1 g2 g3 g4 with
         | Some x => is_low_surrogate x
         | None => true
         end
  | _ => false
  end.

Lemma scanstring_plain (c : Z) (r : text) :
  needs_escape c = false -> scanstring (c :: r) = pcons c (scanstring r).
Proof.
  unfold needs_escape. intros H. cbn [scanstring].
  revert H. zb; intros; try discriminate; reflexivity.
Qed.

Lemma scanstring_unescape (e ch : Z) (r : text) :
  e <> c_u -> unescape e = Some ch ->
  scanstring (c_backslash :: e :: r) = pcons ch (scanstring r).
Proof.
  intros He Hu. cbn [scanstring]. change (92 =? 34) with false.
  change (92 =? 92) with true. cbv iota.
  destruct (Z.eqb_spec e 117); [contradiction |]. rewrite Hu. reflexivity.
Qed.

Lemma scanstring_u_escape (n : Z) (r2 : text) :
  0 <= n < 65536 ->
  is_high_surrogate n && low_escape_head r2 = false ->
  scanstring (u_escape n ++ r2) = pcons n (scanstring r2).
Proof.
  intros Hn Hpair. unfold u_escape. cbn [app scanstring].
  change (92 =? 34) with false. change (92 =? 92) with true.
  change (117 =? 117) with true. cbv iota.
  rewrite hex4_u_escape by exact Hn.
  destruct r2 as [|bs [|u [|g1 [|g2 [|g3 [|g4 r4]]]]]]; try reflexivity.
  unfold low_escape_head in Hpair.
  destruct (is_high_surrogate n); [| reflexivity].
  cbn [andb] in *.
  destruct (bs =? 92); [| reflexivity].
  destruct (u =? 117); [| reflexivity].
  cbn [andb] in *.
  destruct (hex4 g1 g2 g3 g4); [| discriminate].
  rewrite Hpair. reflexivity.
Qed.

Lemma scanstring_surrogate_pair (c : Z) (r : text) :
  0x10000 <= c <= 0x10ffff ->
  scanstring (escape_char c ++ r) = pcons c (scanstring r).
Proof.
  intros Hc. unfold escape_char.
  destruct (Z.eqb_spec c 92); [lia |]. destruct (Z.eqb_spec c 34); [lia |].
  destruct (Z.eqb_spec c 8); [lia |]. destruct (Z.eqb_spec c 12); [lia |].
  destruct (Z.eqb_spec c 10); [lia |]. destruct (Z.eqb_spec c 13); [lia |].
  destruct (Z.eqb_spec c 9); [lia |]. destruct (Z.ltb_spec c 0x10000); [lia |].
  cbv zeta.
  pose proof (surrogate_high_range c Hc) as Hh.
  pose proof (surrogate_low_range c) as Hl.
  pose proof (join_surrogates_split c Hc) as Hj.
  set (s1 := Z.lor 0xd800 _) in *. set (s2 := Z.lor 0xdc00 _) in *.
  unfold u_escape. cbn [app scanstring].
  change (92 =? 34) with false. change (92 =? 92) with true.
  change (117 =? 117) with true. cbv iota. cbn [andb].
  rewrite !hex4_u_escape by lia.
  assert (H1 : is_high_surrogate s1 = true) by (unfold is_high_surrogate; zb; reflexivity).
  assert (H2 : is_low_surrogate s2 = true) by (unfold is_low_surrogate; zb; reflexivity).
  rewrite H1, H2, Hj. reflexivity.
Qed.

Lemma low_escape_head_inv (r : text) :
  low_escape_head r = true ->
  exists g1 g2 g3 g4 r4,
    r = c_backslash :: c_u :: g1 :: g2 :: g3 :: g4 :: r4
    /\ match hex4 g1 g2 g3 g4 with
       | Some x => is_low_surrogate x = true
       | None => True
       end.
Proof.
  destruct r as [|bs [|u [|g1 [|g2 [|g3 [|g4 r4]]]]]]; try discriminate.
  cbn [low_escape_head]. rewrite !andb_true_iff, !Z.eqb_eq.
  intros [[-> ->] H]. exists g1, g2, g3, g4, r4. split; [reflexivity |].
  destruct (hex4 g1 g2 g3 g4); auto.
Qed.

Lemma low_escape_head_encoded (s rest : text) :
  forallb is_code_point s = true ->
  low_escape_head (flat_map encode_char s ++ c_quote :: rest) = true ->
  exists c s', s = c :: s' /\ is_low_surrogate c = true.
Proof.
  intros Hcp H. apply low_escape_head_inv in H.
  destruct H as (g1 & g2 & g3 & g4 & r4 & Heq & Hlow).
  destruct s as [|c s']; [discriminate Heq |].
  cbn [forallb] in Hcp. apply andb_true_iff in Hcp as [Hc _].
  exists c, s'. split; [reflexivity |].
  unfold is_code_point in Hc. apply andb_true_iff in Hc.
  rewrite !Z.leb_le in Hc.
  cbn [flat_map] in Heq. rewrite <- app_assoc in Heq.
  revert Heq. unfold encode_char.
  destruct (needs_escape c) eqn:Hesc.
  - unfold escape_char.
    destruct (Z.eqb_spec c 92); [intros; discriminate |].
    destruct (Z.eqb_spec c 34); [intros; discriminate |].
    destruct (Z.eqb_spec c 8); [intros; discriminate |].
    destruct (Z.eqb_spec c 12); [intros; discriminate |].
    destruct (Z.eqb_spec c 10); [intros; discriminate |].
    destruct (Z.eqb_spec c 13); [intros; discriminate |].
    destruct (Z.eqb_spec c 9); [intros; discriminate |].
    destruct (Z.ltb_spec c 0x10000).
    + unfold u_escape. cbn [app]. intros Heq.
      injection Heq as <- <- <- <- _.
      rewrite hex4_u_escape in Hlow by lia. exact Hlow.
    + cbv zeta.
      pose proof (surrogate_high_range c ltac:(lia)) as Hh.
      set (s1 := Z.lor 0xd800 _) in *.
      unfold u_escape at 1. rewrite <- !app_assoc. cbn [app]. intros Heq.
      injection Heq as <- <- <- <- _.
      rewrite hex4_u_escape in Hlow by lia.
      unfold is_low_surrogate in Hlow. revert Hlow; zb; discriminate.
  - cbn [app]. intros Heq. injection Heq as -> _. discriminate Hesc.
Qed.

Lemma scanstring_encoded (s rest : text) :
  wf_str s = true ->
  scanstring (flat_map encode_char s ++ c_quote :: rest) = POk s rest.
Proof.
  unfold wf_str. rewrite andb_true_iff. intros [Hcp Hsp].
  induction s as [|c s IH]; [reflexivity |].
  cbn [forallb] in Hcp. apply andb_true_iff in Hcp as [Hc Hcp].
  assert (Hsp' : no_surrogate_pair s = true).
  { cbn [no_surrogate_pair] in Hsp. apply andb_true_iff in Hsp. tauto. }
  specialize (IH Hcp Hsp').
  cbn [flat_map]. rewrite <- app_assoc.
  set (tail := flat_map encode_char s ++ c_quote :: rest) in *.
  assert (Hgoal : forall t, t = pcons c (scanstring tail) -> t = POk (c :: s) rest).
  { intros t ->. rewrite IH. reflexivity. }
  apply Hgoal. clear Hgoal.
  unfold is_code_point in Hc. apply andb_true_iff in Hc.
  rewrite !Z.leb_le in Hc.
  unfold encode_char. destruct (needs_escape c) eqn:Hesc.
  - destruct (Z.ltb_spec c 0x10000) as [Hlt | Hge];
      [| apply scanstring_surrogate_pair; lia].
    unfold escape_char.
    destruct (Z.eqb_spec c 92) as [-> |]; [reflexivity |].
    destruct (Z.eqb_spec c 34) as [-> |]; [reflexivity |].
    destruct (Z.eqb_spec c 8) as [-> |]; [reflexivity |].
    destruct (Z.eqb_spec c 12) as [-> |]; [reflexivity |].
    destruct (Z.eqb_spec c 10) as [-> |]; [reflexivity |].
    destruct (Z.eqb_spec c 13) as [-> |]; [reflexivity |].
    destruct (Z.eqb_spec c 9) as [-> |]; [reflexivity |].
    destruct (Z.ltb_spec c 0x10000); [| lia].
    apply scanstring_u_escape; [lia |].
    destruct (is_high_surrogate c) eqn:Hhigh; [| reflexivity].
    cbn [andb]. destruct (low_escape_head tail) eqn:Hlow; [| reflexivity].
    apply low_escape_head_encoded in Hlow; [| exact Hcp].
    destruct Hlow as (c2 & s' & -> & Hc2).
    cbn [no_surrogate_pair] in Hsp. rewrite Hhigh, Hc2 in Hsp. discriminate.
  - cbn [app]. apply scanstring_plain. exact Hesc.
Qed.

(* ================================================================== *)
(** ** Integers: the decoder inverts [int.__repr__] *)

(** What follows a value inside a serialization: nothing, a comma or a
    closing bracket. *)
Definition delimited (rest : text) : Prop :=
  match rest with
  | [] => True
  | c :: _ => c = c_comma \/ c = c_rbracket \/ c = c_rbrace
  end.

Lemma to_uint_no_leading_zero (p : positive) (u : Decimal.uint) :
  Pos.to_uint p <> Decimal.D0 u.
Proof.
  intros E.
  assert (Hn : Decimal.unorm (Pos.to_uint p) = Pos.to_uint p).
  { rewrite <- (DecimalPos.Unsigned.to_of (Pos.to_uint p)).
    rewrite DecimalPos.Unsigned.of_to. reflexivity. }
  assert (Hz : Decimal.nzhead (Pos.to_uint p) <> Decimal.Nil).
  { intros Hnil. apply DecimalFacts.unorm_0 in Hnil.
    apply (DecimalPos.Unsigned.to_uint_nonzero p). congruence. }
  apply DecimalFacts.unorm_nzhead in Hz. rewrite Hn in Hz.
  apply (DecimalFacts.nzhead_nonzero (Pos.to_uint p) u). congruence.
Qed.

Lemma digits_uint_chars (u : Decimal.uint) : digits_uint (uint_chars u) = u.
Proof. induction u; cbn; congruence. Qed.

Lemma uint_chars_digits (u : Decimal.uint) :
  forallb is_digit (uint_chars u) = true.
Proof. induction u; cbn; auto. Qed.

Lemma span_digits_app (ds rest : text) :
  forallb is_digit ds = true ->
  match rest with [] => True | c :: _ => is_digit c = false end ->
  span_digits (ds ++ rest) = (ds, rest).
Proof.
  intros Hds Hrest. induction ds as [|d ds IH]; cbn [app].
  - destruct rest as [|c r]; [reflexivity |]. cbn. rewrite Hrest. reflexivity.
  - cbn [forallb] in Hds. apply andb_true_iff in Hds as [Hd Hds].
    cbn [span_digits]. rewrite Hd, (IH Hds). reflexivity.
Qed.

Lemma delimited_not_digit (rest : text) :
  delimited rest ->
  match rest with [] => True | c :: _ => is_digit c = false end.
Proof. destruct rest as [|c r]; cbn; [auto |]. intros [-> | [-> | ->]]; reflexivity. Qed.

Lemma delimited_not_float (rest : text) :
  delimited rest -> starts_frac rest || starts_exp rest = false.
Proof.
  destruct rest as [|c r]; cbn; [auto |].
  intros [-> | [-> | ->]]; destruct r; reflexivity.
Qed.

Lemma uint_chars_pos (p : positive) :
  exists c ds, uint_chars (Pos.to_uint p) = c :: ds
               /\ 49 <= c <= 57 /\ forallb is_digit ds = true.
Proof.
  pose proof (to_uint_no_leading_zero p) as Hz.
  pose proof (DecimalPos.Unsigned.to_uint_nonnil p) as Hn.
  destruct (Pos.to_uint p) as [|u|u|u|u|u|u|u|u|u|u]; cbn [uint_chars];
    try congruence; try (exfalso; apply (Hz u); reflexivity);
    eexists _, _; (split; [reflexivity |]); (split; [lia |]);
    apply uint_chars_digits.
Qed.

Lemma match_number_int_repr (z : Z) (rest : text) :
  delimited rest ->
  match_number (int_repr z ++ rest) = POk (VInt z) rest.
Proof.
  intros Hrest.
  pose proof (delimited_not_float rest Hrest) as Hfloat.
  pose proof (delimited_not_digit rest Hrest) as Hdigit.
  pose proof (DecimalZ.of_to z) as Hz.
  unfold int_repr. destruct z as [|p|p]; cbn [Z.to_int] in *.
  - cbn. unfold number_result. rewrite Hfloat. reflexivity.
  - destruct (uint_chars_pos p) as (c & ds & Heq & Hc & Hds).
    rewrite Heq. cbn [app]. unfold match_number.
    destruct (Z.eqb_spec c 45); [lia |]. unfold match_digits.
    replace ((49 <=? c) && (c <=? 57)) with true by (zb; reflexivity).
    rewrite (span_digits_app ds rest Hds Hdigit).
    unfold number_result. rewrite Hfloat. unfold parse_int.
    rewrite <- Heq, digits_uint_chars, Hz. reflexivity.
  - destruct (uint_chars_pos p) as (c & ds & Heq & Hc & Hds).
    rewrite Heq. cbn [app]. unfold match_number.
    change (45 =? 45) with true. cbv iota. unfold match_digits.
    replace ((49 <=? c) && (c <=? 57)) with true by (zb; reflexivity).
    rewrite (span_digits_app ds rest Hds Hdigit).
    unfold number_result. rewrite Hfloat. unfold parse_int.
    rewrite <- Heq, digits_uint_chars, Hz. reflexivity.
Qed.

Lemma int_repr_head (z : Z) :
  exists c t, int_repr z = c :: t
              /\ (48 <= c <= 57
                  \/ (c = c_minus /\ exists d t', t = d :: t' /\ 48 <= d <= 57)).
Proof.
  unfold int_repr. destruct z as [|p|p]; cbn [Z.to_int].
  - exists 48, []. split; [reflexivity | lia].
  - destruct (uint_chars_pos p) as (c & ds & Heq & Hc & _).
    exists c, ds. split; [exact Heq | lia].
  - destruct (uint_chars_pos p) as (c & ds & Heq & Hc & _).
    exists 45, (uint_chars (Pos.to_uint p)). split; [reflexivity |].
    right. split; [reflexivity |]. exists c, ds. split; [exact Heq | lia].
Qed.

Lemma startswith_head_neq (p0 c : Z) (p t : text) :
  p0 <> c -> startswith (p0 :: p) (c :: t) = false.
Proof. intros H. cbn [startswith]. destruct (Z.eqb_spec p0 c); [contradiction | reflexivity]. Qed.

Lemma startswith_second_neq (p0 p1 c d : Z) (p t : text) :
  p1 <> d -> startswith (p0 :: p1 :: p) (c :: d :: t) = false.
Proof.
  intros H. cbn [startswith].
  destruct (Z.eqb_spec p1 d); [contradiction |]. apply andb_false_r.
Qed.

(** On a text that starts like a number, [scan_once] is [match_number]. *)
Lemma scan_once_number (fuel : nat) (c : Z) (t : text) :
  48 <= c <= 57
  \/ (c = c_minus /\ exists d t', t = d :: t' /\ 48 <= d <= 57) ->
  scan_once (S fuel) (c :: t) = match_number (c :: t).
Proof.
  intros Hc. cbn [scan_once].
  destruct (Z.eqb_spec c 34); [lia |].
  destruct (Z.eqb_spec c 123); [lia |].
  destruct (Z.eqb_spec c 91); [lia |].
  change (str "null") with [110; 117; 108; 108].
  change (str "true") with [116; 114; 117; 101].
  change (str "false") with [102; 97; 108; 115; 101].
  change (str "NaN") with [78; 97; 78].
  change (str "Infinity") with [73; 110; 102; 105; 110; 105; 116; 121].
  change (str "-Infinity") with [45; 73; 110; 102; 105; 110; 105; 116; 121].
  rewrite !(startswith_head_neq _ c) by lia.
  destruct Hc as [Hc | [-> (d & t' & -> & Hd)]].
  - rewrite startswith_head_neq by lia. reflexivity.
  - rewrite startswith_second_neq by lia. reflexivity.
Qed.

Lemma scan_once_int_repr (fuel : nat) (z : Z) (rest : text) :
  delimited rest ->
  scan_once (S fuel) (int_repr z ++ rest) = POk (VInt z) rest.
Proof.
  intros Hrest. rewrite <- (match_number_int_repr z rest Hrest).
  destruct (int_repr_head z) as (c & t & Heq & Hc). rewrite Heq.
  cbn [app]. apply scan_once_number.
  destruct Hc as [Hc | [-> (d & t' & -> & Hd)]]; [left; exact Hc |].
  right. split; [reflexivity |]. exists d, (t' ++ rest). split; [reflexivity | exact Hd].
Qed.

(* ================================================================== *)
(** ** Values: [scan_once] inverts [json_dumps] *)

Lemma skip_ws_nonws (c : Z) (t : text) :
  is_ws c = false -> skip_ws (c :: t) = c :: t.
Proof. intros H. cbn [skip_ws]. rewrite H. reflexivity. Qed.

Lemma json_dumps_head (v : pyval) :
  exists c t, json_dumps v = c :: t
              /\ is_ws c = false /\ c <> c_rbracket /\ c <> c_rbrace
              /\ c < 128.
Proof.
  destruct v as [| [|] | z | s | l | d].
  - exists 110, [117; 108; 108]. repeat split; lia.
  - exists 116, [114; 117; 101]. repeat split; lia.
  - exists 102, [97; 108; 115; 101]. repeat split; lia.
  - destruct (int_repr_head z) as (c & t & Heq & Hc).
    exists c, t. cbn [json_dumps]. split; [exact Heq |].
    unfold is_ws. split; [| lia].
    destruct Hc as [Hc | [-> _]]; [zb; reflexivity | reflexivity].
  - eexists _, _. split; [reflexivity |]. repeat split; lia.
  - eexists _, _. split; [reflexivity |]. repeat split; lia.
  - eexists _, _. split; [reflexivity |]. repeat split; lia.
Qed.

Lemma skip_ws_join_dumps (y : pyval) (l : list pyval) (X : text) :
  skip_ws (join item_separator (map json_dumps (y :: l)) ++ X)
  = join item_separator (map json_dumps (y :: l)) ++ X.
Proof.
  destruct (json_dumps_head y) as (c & t & Heq & Hws & _).
  cbn [map]. destruct (map json_dumps l); cbn [join]; rewrite Heq;
    cbn [app]; apply skip_ws_nonws; exact Hws.
Qed.

Definition dumps_item (kv : text * pyval) : text :=
  py_encode_basestring_ascii (fst kv) ++ key_separator ++ json_dumps (snd kv).

Lemma skip_ws_join_items (kv : text * pyval) (d : dict) (X : text) :
  skip_ws (join item_separator (map dumps_item (kv :: d)) ++ X)
  = join item_separator (map dumps_item (kv :: d)) ++ X.
Proof.
  cbn [map]. destruct (map dumps_item d); cbn [join];
    unfold dumps_item at 1, py_encode_basestring_ascii; cbn [app];
    apply skip_ws_nonws; reflexivity.
Qed.

Lemma dict_set_fresh (k : text) (v : pyval) (d : dict) :
  existsb (text_eqb k) (map fst d) = false -> dict_set k v d = d ++ [(k, v)].
Proof.
  induction d as [|[k' v'] d IH]; cbn [map existsb dict_set app fst];
    [reflexivity |].
  rewrite orb_false_iff. intros [Hk Hd]. rewrite Hk, (IH Hd). reflexivity.
Qed.

Lemma existsb_text_eqb_app (k : text) (a b : list text) :
  existsb (text_eqb k) (a ++ b)
  = existsb (text_eqb k) a || existsb (text_eqb k) b.
Proof. apply existsb_app. Qed.

Lemma distinct_app_cons (a : list text) (k : text) (b : list text) :
  distinct (a ++ k :: b) = true ->
  existsb (text_eqb k) a = false /\ distinct ((a ++ [k]) ++ b) = true.
Proof.
  intros H. rewrite <- app_assoc. cbn [app]. split; [| exact H].
  induction a as [|x a IH]; [reflexivity |].
  cbn [app distinct] in H. apply andb_true_iff in H as [Hx Ha].
  cbn [existsb]. rewrite (IH Ha), orb_false_r.
  rewrite existsb_app in Hx. cbn [existsb] in Hx.
  apply negb_true_iff in Hx. apply orb_false_iff in Hx as [_ Hx].
  apply orb_false_iff in Hx as [Hx _].
  apply text_eqb_neq. apply text_eqb_neq in Hx. congruence.
Qed.

Lemma size_pos (v : pyval) : (1 <= size v)%nat.
Proof. destruct v; cbn; lia. Qed.

(** The statement proved by induction on the value. *)
Definition scan_inverts (v : pyval) : Prop :=
  wf_val v = true ->
  forall (fuel : nat) (rest : text),
    (size v <= fuel)%nat -> delimited rest ->
    scan_once fuel (json_dumps v ++ rest) = POk v rest.

Lemma parse_array_loop_dumps (l : list pyval) :
  Forall scan_inverts l ->
  forall (x : pyval) (acc : list pyval) (fuel : nat) (rest : text),
    scan_inverts x ->
    forallb wf_val (x :: l) = true ->
    (1 + list_sum (map size (x :: l)) <= fuel)%nat ->
    parse_array_loop fuel
      (join item_separator (map json_dumps (x :: l)) ++ c_rbracket :: rest) acc
    = POk (VList (acc ++ x :: l)) rest.
Proof.
  induction 1 as [|y l Hy Hl IH]; intros x acc fuel rest Hx Hwf Hfuel;
    cbn [forallb] in Hwf; apply andb_true_iff in Hwf as [Hwx Hwl];
    cbn [map list_sum fold_right] in Hfuel;
    (destruct fuel as [|fuel]; [lia |]); cbn [parse_array_loop].
  - cbn [map join].
    rewrite (Hx Hwx fuel (c_rbracket :: rest)) by first [lia | cbn; auto].
    reflexivity.
  - change (map json_dumps (x :: y :: l))
      with (json_dumps x :: map json_dumps (y :: l)).
    change (join item_separator (json_dumps x :: map json_dumps (y :: l)))
      with (json_dumps x ++ item_separator
            ++ join item_separator (map json_dumps (y :: l))).
    rewrite <- !app_assoc.
    rewrite (Hx Hwx fuel) by first [lia | cbn; auto].
    cbn [pbind]. unfold item_separator at 1. cbn [app]. rewrite skip_ws_nonws by reflexivity.
    change (44 =? 93) with false. change (44 =? 44) with true. cbv iota.
    change (skip_ws (32 :: ?t)) with (skip_ws t).
    rewrite skip_ws_join_dumps.
    pose proof (size_pos x).
    rewrite (IH y (acc ++ [x]) fuel rest Hy Hwl) by (cbn [map list_sum fold_right]; lia).
    rewrite <- app_assoc. reflexivity.
Qed.

Lemma parse_object_loop_dumps (d : dict) :
  Forall (fun kv => scan_inverts (snd kv)) d ->
  forall (kv : text * pyval) (acc : dict) (fuel : nat) (rest : text),
    scan_inverts (snd kv) ->
    forallb (fun kv => wf_str (fst kv) && wf_val (snd kv)) (kv :: d) = true ->
    distinct (map fst (acc ++ kv :: d)) = true ->
    (1 + list_sum (map (fun kv => size (snd kv)) (kv :: d)) <= fuel)%nat ->
    parse_object_loop fuel
      (join item_separator (map dumps_item (kv :: d)) ++ c_rbrace :: rest) acc
    = POk (VDict (acc ++ kv :: d)) rest.
Proof.
  induction 1 as [|kv' d Hkv' Hd IH]; intros [k v] acc fuel rest Hv Hwf Hdis Hfuel;
    cbn [forallb fst snd] in Hwf; apply andb_true_iff in Hwf as [Hwkv Hwd];
    apply andb_true_iff in Hwkv as [Hwk Hwv];
    cbn [map list_sum fold_right snd] in Hfuel;
    (destruct fuel as [|fuel]; [lia |]);
    rewrite map_app in Hdis; cbn [map fst] in Hdis;
    apply distinct_app_cons in Hdis as [Hfresh Hdis];
    cbn [snd] in Hv.
  - cbn [map join]. unfold dumps_item, py_encode_basestring_ascii.
    cbn [fst snd]. unfold key_separator. cbn [app]. rewrite <- !app_assoc. cbn [app].
    cbn [parse_object_loop]. change (34 =? 34) with true. cbv iota.
    rewrite scanstring_encoded by exact Hwk.
    cbn [pbind]. rewrite skip_ws_nonws by reflexivity.
    change (58 =? 58) with true. cbv iota.
    change (skip_ws (32 :: ?t)) with (skip_ws t).
    destruct (json_dumps_head v) as (c & t & Heq & Hws & _).
    rewrite Heq at 1. cbn [app]. rewrite skip_ws_nonws by exact Hws.
    change (c :: t ++ ?X) with ((c :: t) ++ X). rewrite <- Heq.
    rewrite (Hv Hwv fuel) by first [lia | cbn; auto].
    cbn [pbind]. rewrite skip_ws_nonws by reflexivity.
    change (125 =? 125) with true. cbv iota.
    rewrite dict_set_fresh by exact Hfresh. reflexivity.
  - change (map dumps_item ((k, v) :: kv' :: d))
      with (dumps_item (k, v) :: map dumps_item (kv' :: d)).
    change (join item_separator (dumps_item (k, v) :: map dumps_item (kv' :: d)))
      with (dumps_item (k, v) ++ item_separator
            ++ join item_separator (map dumps_item (kv' :: d))).
    unfold dumps_item at 1, py_encode_basestring_ascii.
    cbn [fst snd]. unfold key_separator. cbn [app]. rewrite <- !app_assoc. cbn [app].
    cbn [parse_object_loop]. change (34 =? 34) with true. cbv iota.
    rewrite scanstring_encoded by exact Hwk.
    cbn [pbind]. rewrite skip_ws_nonws by reflexivity.
    change (58 =? 58) with true. cbv iota.
    change (skip_ws (32 :: ?t)) with (skip_ws t).
    destruct (json_dumps_head v) as (c & t & Heq & Hws & _).
    rewrite Heq at 1. cbn [app]. rewrite skip_ws_nonws by exact Hws.
    change (c :: t ++ ?X) with ((c :: t) ++ X). rewrite <- Heq.
    rewrite (Hv Hwv fuel) by first [lia | cbn; auto].
    cbn [pbind]. unfold item_separator at 1. cbn [app]. rewrite skip_ws_nonws by reflexivity.
    change (44 =? 125) with false. change (44 =? 44) with true. cbv iota.
    change (skip_ws (32 :: ?t)) with (skip_ws t).
    rewrite skip_ws_join_items.
    rewrite dict_set_fresh by exact Hfresh.
    pose proof (size_pos v).
    rewrite (IH kv' (acc ++ [(k, v)]) fuel rest Hkv' Hwd).
    + rewrite <- app_assoc. reflexivity.
    + rewrite !map_app. exact Hdis.
    + cbn [map list_sum fold_right]. lia.
Qed.

Lemma scan_once_dumps (v : pyval) : scan_inverts v.
Proof.
  induction v as [| b | z | s | l IH | d IH] using pyval_nested_ind;
    intros Hwf fuel rest Hfuel Hrest;
    (destruct fuel as [|fuel]; [cbn in Hfuel; lia |]).
  - reflexivity.
  - destruct b; reflexivity.
  - apply scan_once_int_repr. exact Hrest.
  - cbn [json_dumps]. unfold py_encode_basestring_ascii.
    cbn [app]. rewrite <- app_assoc. cbn [app scan_once].
    change (34 =? 34) with true. cbv iota.
    rewrite scanstring_encoded by exact Hwf. reflexivity.
  - cbn [json_dumps wf_val size] in *. cbn [app]. rewrite <- app_assoc.
    cbn [scan_once]. change (91 =? 34) with false.
    change (91 =? 123) with false. change (91 =? 91) with true. cbv iota.
    destruct l as [|x l]; [reflexivity |].
    rewrite skip_ws_join_dumps.
    destruct (json_dumps_head x) as (c & t & Heq & Hws & Hc & _).
    assert (Hshape : exists t', join item_separator (map json_dumps (x :: l))
                                ++ [c_rbracket] ++ rest = c :: t').
    { cbn [map]. destruct (map json_dumps l); cbn [join]; rewrite Heq;
        cbn [app]; eexists; reflexivity. }
    destruct Hshape as (t' & Hshape). rewrite Hshape.
    destruct (Z.eqb_spec c 93); [contradiction |].
    rewrite <- Hshape. inversion IH as [|? ? Hx Hl]; subst.
    apply (parse_array_loop_dumps l Hl x [] fuel rest Hx Hwf).
    cbn [Nat.add] in Hfuel. lia.
  - cbn [json_dumps wf_val size] in *. cbn [app]. rewrite <- app_assoc.
    cbn [scan_once]. change (123 =? 34) with false.
    change (123 =? 123) with true. cbv iota.
    destruct d as [|kv d]; [reflexivity |].
    apply andb_true_iff in Hwf as [Hwf Hdis].
    change (map (fun kv0 => py_encode_basestring_ascii (fst kv0)
                            ++ key_separator ++ json_dumps (snd kv0)))
      with (map dumps_item).
    rewrite skip_ws_join_items.
    assert (Hshape : exists t', join item_separator (map dumps_item (kv :: d))
                                ++ [c_rbrace] ++ rest = c_quote :: t').
    { cbn [map]. destruct (map dumps_item d); cbn [join];
        unfold dumps_item at 1, py_encode_basestring_ascii; cbn [app];
        eexists; reflexivity. }
    destruct Hshape as (t' & Hshape). rewrite Hshape.
    change (34 =? 125) with false. cbv iota.
    rewrite <- Hshape. inversion IH as [|? ? Hx Hl]; subst.
    apply (parse_object_loop_dumps d Hl kv [] fuel rest Hx Hwf Hdis).
    cbn [Nat.add] in Hfuel. lia.
Qed.

(* ================================================================== *)
(** ** One step of [scanstring] *)

(** [string_token s c s']: the decoder reads the character [c] at the
    head of [s] and continues with [s']. *)
Inductive string_token : text -> Z -> text -> Prop :=
| tok_plain (c : Z) (s' : text) :
    c <> c_quote -> c <> c_backslash -> 0x1f < c ->
    string_token (c :: s') c s'
| tok_escape (e ch : Z) (s' : text) :
    e <> c_u -> unescape e = Some ch ->
    string_token (c_backslash :: e :: s') ch s'
| tok_unicode (h1 h2 h3 h4 uni : Z) (s' : text) :
    hex4 h1 h2 h3 h4 = Some uni ->
    is_high_surrogate uni && low_escape_head s' = false ->
    string_token (c_backslash :: c_u :: h1 :: h2 :: h3 :: h4 :: s') uni s'
| tok_pair (h1 h2 h3 h4 g1 g2 g3 g4 uni uni2 : Z) (s' : text) :
    hex4 h1 h2 h3 h4 = Some uni -> is_high_surrogate uni = true ->
    hex4 g1 g2 g3 g4 = Some uni2 -> is_low_surrogate uni2 = true ->
    string_token
      (c_backslash :: c_u :: h1 :: h2 :: h3 :: h4
       :: c_backslash :: c_u :: g1 :: g2 :: g3 :: g4 :: s')
      (join_surrogates uni uni2) s'.

Lemma pcons_ok (c : Z) (p : presult text) (k r : text) :
  pcons c p = POk k r -> exists k', k = c :: k' /\ p = POk k' r.
Proof.
  destruct p as [k' r' | | |]; cbn; try discriminate.
  intros H; injection H as <- <-. exists k'. auto.
Qed.

Lemma scanstring_inv (s k r : text) :
  scanstring s = POk k r ->
  (k = [] /\ s = c_quote :: r)
  \/ exists c k' s',
       k = c :: k' /\ string_token s c s' /\ scanstring s' = POk k' r.
Proof.
  destruct s as [|c s0]; [discriminate |]. cbn [scanstring].
  destruct (Z.eqb_spec c 34) as [-> | Hq].
  { intros H; injection H as <- <-. left; auto. }
  destruct (Z.eqb_spec c 92) as [-> | Hb].
  2:{ destruct (Z.leb_spec c 0x1f) as [Hle | Hgt]; [discriminate |].
      intros H. apply pcons_ok in H as (k' & -> & H).
      right. exists c, k', s0. repeat split; auto. constructor; auto. }
  destruct s0 as [|e s1]; [discriminate |].
  destruct (Z.eqb_spec e 117) as [-> | He].
  2:{ destruct (unescape e) as [ch|] eqn:Hu; [| discriminate].
      intros H. apply pcons_ok in H as (k' & -> & H).
      right. exists ch, k', s1. repeat split; auto. constructor; auto. }
  destruct s1 as [|h1 [|h2 [|h3 [|h4 s2]]]]; try discriminate.
  destruct (hex4 h1 h2 h3 h4) as [uni|] eqn:Hh; [| discriminate].
  assert (Hlone : is_high_surrogate uni && low_escape_head s2 = false ->
                  pcons uni (scanstring s2) = POk k r ->
                  exists c k' s',
                    k = c :: k'
                    /\ string_token (92 :: 117 :: h1 :: h2 :: h3 :: h4 :: s2) c s'
                    /\ scanstring s' = POk k' r).
  { intros Hc H. apply pcons_ok in H as (k' & -> & H).
    exists uni, k', s2. repeat split; auto. constructor; auto. }
  destruct s2 as [|bs [|u [|g1 [|g2 [|g3 [|g4 s4]]]]]];
    try (intros H; right; apply Hlone; [apply andb_false_r | exact H]).
  destruct (is_high_surrogate uni) eqn:Hhigh;
    [| intros H; right; apply Hlone; [reflexivity | exact H]].
  cbn [andb].
  destruct (Z.eqb_spec bs 92) as [-> | Hbs];
    [| intros H; right; apply Hlone; [| exact H]; cbn;
       destruct (Z.eqb_spec bs 92); [contradiction | reflexivity]].
  destruct (Z.eqb_spec u 117) as [-> | Hu];
    [| intros H; right; apply Hlone; [| exact H]; cbn;
       destruct (Z.eqb_spec u 117); [contradiction | reflexivity]].
  cbn [andb].
  destruct (hex4 g1 g2 g3 g4) as [uni2|] eqn:Hg; [| discriminate].
  destruct (is_low_surrogate uni2) eqn:Hlow.
  - intros H. apply pcons_ok in H as (k' & -> & H).
    right. exists (join_surrogates uni uni2), k', s4.
    repeat split; auto. constructor; auto.
  - intros H; right; apply Hlone; [| exact H]. cbn [low_escape_head andb].
    change (92 =? 92) with true. change (117 =? 117) with true.
    cbn [andb]. rewrite Hg. exact Hlow.
Qed.

(** ** Suffixes *)

Definition suffix (s r : text) : Prop := exists pre, s = pre ++ r.
Definition consumes (s r : text) : Prop :=
  exists pre, pre <> [] /\ s = pre ++ r.

Lemma suffix_refl (s : text) : suffix s s.
Proof. exists []. reflexivity. Qed.

Lemma suffix_cons (c : Z) (s r : text) : suffix s r -> consumes (c :: s) r.
Proof. intros [pre ->]. exists (c :: pre). split; [discriminate | reflexivity]. Qed.

Lemma consumes_suffix (s r : text) : consumes s r -> suffix s r.
Proof. intros (pre & _ & ->). exists pre. reflexivity. Qed.

Lemma suffix_trans (a b c : text) : suffix a b -> suffix b c -> suffix a c.
Proof. intros [p ->] [q ->]. exists (p ++ q). rewrite app_assoc. reflexivity. Qed.

Lemma consumes_suffix_trans (a b c : text) :
  consumes a b -> suffix b c -> consumes a c.
Proof.
  intros (p & Hp & ->) [q ->]. exists (p ++ q). split.
  - destruct p; [contradiction | discriminate].
  - rewrite app_assoc. reflexivity.
Qed.

Lemma suffix_consumes_trans (a b c : text) :
  suffix a b -> consumes b c -> consumes a c.
Proof.
  intros [p ->] (q & Hq & ->). exists (p ++ q). split.
  - destruct p; [exact Hq | discriminate].
  - rewrite app_assoc. reflexivity.
Qed.

Lemma consumes_length (s r : text) :
  consumes s r -> (List.length r < List.length s)%nat.
Proof.
  intros (pre & Hp & ->). rewrite length_app.
  destruct pre; [contradiction | cbn; lia].
Qed.

Lemma suffix_length (s r : text) :
  suffix s r -> (List.length r <= List.length s)%nat.
Proof. intros [pre ->]. rewrite length_app. lia. Qed.

Lemma suffix_forallb (P : Z -> bool) (s r : text) :
  suffix s r -> forallb P s = true -> forallb P r = true.
Proof.
  intros [pre ->]. rewrite forallb_app, andb_true_iff. tauto.
Qed.

Lemma skip_ws_suffix (s : text) : suffix s (skip_ws s).
Proof.
  induction s as [|c s IH]; [apply suffix_refl |]. cbn [skip_ws].
  destruct (is_ws c); [| apply suffix_refl].
  apply consumes_suffix, suffix_cons, IH.
Qed.

Lemma string_token_consumes (s s' : text) (c : Z) :
  string_token s c s' -> consumes s s'.
Proof.
  intros H. destruct H;
    repeat first [ apply suffix_refl | apply suffix_cons
                 | apply consumes_suffix; apply suffix_cons ].
Qed.

Lemma scanstring_consumes (k : text) :
  forall s r, scanstring s = POk k r -> consumes s r.
Proof.
  induction k as [|c k IH]; intros s r H;
    apply scanstring_inv in H as [[Hk ->] | (c' & k' & s' & Hk & Htok & H)];
    try discriminate.
  - apply suffix_cons, suffix_refl.
  - injection Hk as <- <-.
    apply consumes_suffix_trans with s';
      [eapply string_token_consumes; eassumption |].
    apply consumes_suffix, IH, H.
Qed.

(* ================================================================== *)
(** ** The decoder consumes its input, and its budget is enough *)

Lemma pbind_ok {A B : Type} (p : presult A) (k : A -> text -> presult B)
      (b : B) (r : text) :
  pbind p k = POk b r -> exists a r1, p = POk a r1 /\ k a r1 = POk b r.
Proof. destruct p as [a r1 | | |]; cbn; try discriminate. eauto. Qed.

Lemma startswith_app (p s : text) :
  startswith p s = true -> s = p ++ skipn (List.length p) s.
Proof.
  revert s; induction p as [|x p IH]; intros [|y s]; cbn; try discriminate;
    [reflexivity | reflexivity |].
  rewrite andb_true_iff, Z.eqb_eq. intros [-> H]. f_equal. apply IH, H.
Qed.

Lemma startswith_consumes (p s : text) :
  p <> [] -> startswith p s = true -> consumes s (skipn (List.length p) s).
Proof. intros Hp H. exists p. split; [exact Hp | apply startswith_app, H]. Qed.

Lemma span_digits_app_eq (s ds r : text) :
  span_digits s = (ds, r) -> s = ds ++ r.
Proof.
  revert ds r; induction s as [|c s IH]; intros ds r; cbn [span_digits].
  - intros H; injection H as <- <-. reflexivity.
  - destruct (is_digit c).
    + destruct (span_digits s) as [ds' r'] eqn:E.
      intros H; injection H as <- <-. cbn. f_equal. apply IH. reflexivity.
    + intros H; injection H as <- <-. reflexivity.
Qed.

Lemma number_result_inv (neg : bool) (ds r0 : text) (v : pyval) (r : text) :
  number_result neg ds r0 = POk v r -> v = VInt (parse_int neg ds) /\ r = r0.
Proof.
  unfold number_result. destruct (starts_frac r0 || starts_exp r0);
    [discriminate |]. intros H; injection H as <- <-. auto.
Qed.

Lemma match_digits_inv (neg : bool) (s : text) (v : pyval) (r : text) :
  match_digits neg s = POk v r -> consumes s r /\ exists z, v = VInt z.
Proof.
  destruct s as [|c r0]; [discriminate |]. cbn [match_digits].
  destruct ((49 <=? c) && (c <=? 57)).
  - destruct (span_digits r0) as [ds r'] eqn:E. intros H.
    apply number_result_inv in H as [-> ->].
    apply span_digits_app_eq in E. subst r0. split; [| eauto].
    apply suffix_cons. exists ds. reflexivity.
  - destruct (c =? 48); [| discriminate]. intros H.
    apply number_result_inv in H as [-> ->]. split; [| eauto].
    apply suffix_cons, suffix_refl.
Qed.

Lemma match_number_inv (s : text) (v : pyval) (r : text) :
  match_number s = POk v r -> consumes s r /\ exists z, v = VInt z.
Proof.
  destruct s as [|c s0]; [discriminate |]. cbn [match_number].
  destruct (c =? 45); intros H; apply match_digits_inv in H as [Hc Hz];
    split; auto.
  apply suffix_cons, consumes_suffix, Hc.
Qed.

Lemma suffix_cons_inv (a b : text) (c : Z) : suffix a (c :: b) -> suffix a b.
Proof.
  intros [pre ->]. exists (pre ++ [c]). rewrite <- app_assoc. reflexivity.
Qed.

(** Chains the suffix facts of the context, left to right. *)
Ltac suffix_chain :=
  repeat match goal with
         | H : consumes _ _ |- _ => apply consumes_suffix in H
         | H : suffix _ (_ :: _) |- _ => apply suffix_cons_inv in H
         end;
  repeat first
    [ apply suffix_refl
    | match goal with
      | H : suffix ?a ?b |- suffix ?a _ =>
          apply (suffix_trans a b); [exact H |]
      end ].

Lemma decoder_consumes (fuel : nat) :
  (forall s v r, scan_once fuel s = POk v r -> consumes s r)
  /\ (forall s d v r, parse_object_loop fuel s d = POk v r -> consumes s r)
  /\ (forall s acc v r, parse_array_loop fuel s acc = POk v r -> consumes s r).
Proof.
  induction fuel as [|fuel (IHs & IHo & IHa)];
    [repeat split; intros; discriminate |].
  split; [| split].
  - intros [|c r0] v r; [discriminate |]. cbn [scan_once].
    destruct (c =? 34).
    { intros H. apply pbind_ok in H as (k & r1 & Hs & Hk).
      injection Hk as <- <-. apply scanstring_consumes in Hs.
      apply suffix_cons. suffix_chain. }
    destruct (c =? 123).
    { pose proof (skip_ws_suffix r0) as Hsuf.
      destruct (skip_ws r0) as [|c' r']; [discriminate |].
      destruct (c' =? 125).
      - intros H; injection H as <- <-. apply suffix_cons. suffix_chain.
      - intros H. apply IHo in H. apply suffix_cons.
        apply (suffix_trans _ _ _ Hsuf). apply consumes_suffix, H. }
    destruct (c =? 91).
    { pose proof (skip_ws_suffix r0) as Hsuf.
      destruct (skip_ws r0) as [|c' r']; [discriminate |].
      destruct (c' =? 93).
      - intros H; injection H as <- <-. apply suffix_cons. suffix_chain.
      - intros H. apply IHa in H. apply suffix_cons.
        apply (suffix_trans _ _ _ Hsuf). apply consumes_suffix, H. }
    destruct (startswith (str "null") (c :: r0)) eqn:E1.
    { intros H; injection H as <- <-.
      apply (startswith_consumes (str "null")); [discriminate | exact E1]. }
    destruct (startswith (str "true") (c :: r0)) eqn:E2.
    { intros H; injection H as <- <-.
      apply (startswith_consumes (str "true")); [discriminate | exact E2]. }
    destruct (startswith (str "false") (c :: r0)) eqn:E3.
    { intros H; injection H as <- <-.
      apply (startswith_consumes (str "false")); [discriminate | exact E3]. }
    destruct (startswith (str "NaN") (c :: r0)); [discriminate |].
    destruct (startswith (str "Infinity") (c :: r0)); [discriminate |].
    destruct (startswith (str "-Infinity") (c :: r0)); [discriminate |].
    intros H. apply match_number_inv in H. tauto.
  - intros [|c r0] d v r; [discriminate |]. cbn [parse_object_loop].
    destruct (c =? 34); [| discriminate]. intros H.
    apply pbind_ok in H as (key & r1 & Hs & H).
    apply scanstring_consumes in Hs.
    pose proof (skip_ws_suffix r1) as H1.
    destruct (skip_ws r1) as [|c1 r2]; [discriminate |].
    destruct (c1 =? 58); [| discriminate].
    apply pbind_ok in H as (val & r3 & Hv & H). apply IHs in Hv.
    pose proof (skip_ws_suffix r2) as H2.
    pose proof (skip_ws_suffix r3) as H3.
    destruct (skip_ws r3) as [|c3 r4]; [discriminate |].
    destruct (c3 =? 125).
    + injection H as <- <-. apply suffix_cons. suffix_chain.
    + destruct (c3 =? 44); [| discriminate]. apply IHo in H.
      pose proof (skip_ws_suffix r4) as H4.
      apply suffix_cons. suffix_chain.
  - intros s acc v r. cbn [parse_array_loop]. intros H.
    apply pbind_ok in H as (val & r1 & Hv & H). apply IHs in Hv.
    pose proof (skip_ws_suffix r1) as H1.
    destruct (skip_ws r1) as [|c r2]; [discriminate |].
    destruct (c =? 93).
    + injection H as <- <-.
      apply (consumes_suffix_trans _ _ _ Hv). suffix_chain.
    + destruct (c =? 44); [| discriminate]. apply IHa in H.
      pose proof (skip_ws_suffix r2) as H2.
      apply (consumes_suffix_trans _ _ _ Hv). suffix_chain.
Qed.

Lemma scan_once_consumes (fuel : nat) (s : text) (v : pyval) (r : text) :
  scan_once fuel s = POk v r -> consumes s r.
Proof. apply decoder_consumes. Qed.

Lemma pcons_fuel (c : Z) (p : presult text) : pcons c p = PFuel -> p = PFuel.
Proof. destruct p; cbn; congruence. Qed.

Lemma pbind_fuel {A B : Type} (p : presult A) (k : A -> text -> presult B) :
  pbind p k = PFuel ->
  p = PFuel \/ exists a r1, p = POk a r1 /\ k a r1 = PFuel.
Proof. destruct p as [a r1 | | |]; cbn; try discriminate; eauto. Qed.

Lemma scanstring_no_fuel_aux (n : nat) :
  forall s, (List.length s <= n)%nat -> scanstring s <> PFuel.
Proof.
  induction n as [|n IH]; intros [|c s0] Hn; cbn [scanstring];
    try discriminate; cbn [List.length] in Hn; [lia |].
  repeat match goal with
         | |- context [match ?x with _ => _ end] => destruct x eqn:?
         end;
    try discriminate;
    intros Hf; apply pcons_fuel in Hf; revert Hf; apply IH;
    subst; cbn [List.length] in *; lia.
Qed.

Lemma scanstring_no_fuel (s : text) : scanstring s <> PFuel.
Proof. apply (scanstring_no_fuel_aux (List.length s)). lia. Qed.

Lemma match_number_no_fuel (s : text) : match_number s <> PFuel.
Proof.
  unfold match_number, match_digits, number_result.
  repeat match goal with
         | |- context [match ?x with _ => _ end] => destruct x eqn:?
         end; discriminate.
Qed.

Lemma decoder_fuel (fuel : nat) :
  (forall s, (2 * List.length s < fuel)%nat -> scan_once fuel s <> PFuel)
  /\ (forall s d, (2 * List.length s + 1 < fuel)%nat ->
                  parse_object_loop fuel s d <> PFuel)
  /\ (forall s acc, (2 * List.length s + 1 < fuel)%nat ->
                    parse_array_loop fuel s acc <> PFuel).
Proof.
  induction fuel as [|fuel (IHs & IHo & IHa)];
    [repeat split; intros; lia |].
  split; [| split].
  - intros [|c r0] Hlen; [discriminate |]. cbn [scan_once].
    cbn [List.length] in Hlen.
    destruct (c =? 34).
    { intros H. apply pbind_fuel in H as [H | (k & r1 & _ & H)];
        [exact (scanstring_no_fuel _ H) | discriminate]. }
    destruct (c =? 123).
    { pose proof (suffix_length _ _ (skip_ws_suffix r0)) as Hsuf.
      destruct (skip_ws r0) as [|c' r']; [discriminate |].
      destruct (c' =? 125); [discriminate |].
      apply IHo. cbn [List.length] in *. lia. }
    destruct (c =? 91).
    { pose proof (suffix_length _ _ (skip_ws_suffix r0)) as Hsuf.
      destruct (skip_ws r0) as [|c' r']; [discriminate |].
      destruct (c' =? 93); [discriminate |].
      apply IHa. cbn [List.length] in *. lia. }
    repeat match goal with
           | |- context [if ?x then _ else _] => destruct x
           end; try discriminate.
    apply match_number_no_fuel.
  - intros [|c r0] d Hlen; [discriminate |]. cbn [parse_object_loop].
    cbn [List.length] in Hlen.
    destruct (c =? 34); [| discriminate]. intros H.
    apply pbind_fuel in H as [H | (key & r1 & Hs & H)];
      [exact (scanstring_no_fuel _ H) |].
    apply scanstring_consumes, consumes_length in Hs.
    pose proof (suffix_length _ _ (skip_ws_suffix r1)) as H1.
    destruct (skip_ws r1) as [|c1 r2]; [discriminate |].
    destruct (c1 =? 58); [| discriminate].
    pose proof (suffix_length _ _ (skip_ws_suffix r2)) as H2.
    cbn [List.length] in *.
    apply pbind_fuel in H as [H | (val & r3 & Hv & H)].
    { revert H. apply IHs. lia. }
    apply scan_once_consumes, consumes_length in Hv.
    pose proof (suffix_length _ _ (skip_ws_suffix r3)) as H3.
    destruct (skip_ws r3) as [|c3 r4]; [discriminate |].
    destruct (c3 =? 125); [discriminate |].
    destruct (c3 =? 44); [| discriminate].
    pose proof (suffix_length _ _ (skip_ws_suffix r4)) as H4.
    cbn [List.length] in *. revert H. apply IHo. lia.
  - intros s acc Hlen. cbn [parse_array_loop]. intros H.
    apply pbind_fuel in H as [H | (val & r1 & Hv & H)].
    { revert H. apply IHs. lia. }
    apply scan_once_consumes, consumes_length in Hv.
    pose proof (suffix_length _ _ (skip_ws_suffix r1)) as H1.
    destruct (skip_ws r1) as [|c r2]; [discriminate |].
    destruct (c =? 93); [discriminate |].
    destruct (c =? 44); [| discriminate].
    pose proof (suffix_length _ _ (skip_ws_suffix r2)) as H2.
    cbn [List.length] in *. revert H. apply IHa. lia.
Qed.

(** [json_loads] never exhausts the recursion budget of the model. *)
Theorem json_loads_no_fuel (s : text) : json_loads s <> PFuel.
Proof.
  unfold json_loads. destruct (startswith [0xfeff] s); [discriminate |].
  intros H. apply pbind_fuel in H as [H | (v & r & _ & H)].
  - revert H. apply decoder_fuel.
    pose proof (suffix_length _ _ (skip_ws_suffix s)). lia.
  - destruct (skip_ws r); discriminate.
Qed.

(* ================================================================== *)
(** ** [json.loads] inverts [json.dumps] *)

Lemma length_join (sep : text) (chunks : list text) :
  (list_sum (map (@List.length Z) chunks) <= List.length (join sep chunks))%nat.
Proof.
  induction chunks as [|c [|c' cs] IH]; cbn [map list_sum fold_right join];
    [lia | lia |].
  cbn [map list_sum fold_right join] in IH. rewrite !length_app. lia.
Qed.

Lemma list_sum_map_le {A : Type} (f g : A -> nat) (l : list A) :
  Forall (fun x => (f x <= g x)%nat) l ->
  (list_sum (map f l) <= list_sum (map g l))%nat.
Proof.
  induction 1 as [|x l Hx Hl IH]; cbn [map list_sum fold_right]; [lia |].
  unfold list_sum in IH. lia.
Qed.

Lemma size_le_length (v : pyval) :
  (size v <= List.length (json_dumps v))%nat.
Proof.
  induction v as [| b | z | s | l IH | d IH] using pyval_nested_ind.
  - cbn. lia.
  - destruct b; cbn; lia.
  - destruct (int_repr_head z) as (c & t & Heq & _).
    cbn [json_dumps size]. rewrite Heq. cbn. lia.
  - cbn [json_dumps size]. unfold py_encode_basestring_ascii.
    cbn [List.length]. lia.
  - cbn [json_dumps size List.length]. rewrite length_app. cbn [List.length].
    pose proof (length_join item_separator (map json_dumps l)) as Hj.
    rewrite map_map in Hj.
    pose proof (Nat.le_trans _ _ _ (list_sum_map_le _ _ l IH) Hj) as Hk. lia.
  - cbn [json_dumps size List.length]. rewrite length_app. cbn [List.length].
    match goal with
    | |- context [join _ (map ?f d)] =>
        pose proof (length_join item_separator (map f d)) as Hj;
        rewrite map_map in Hj;
        assert (Hle : (list_sum (map (fun kv => size (snd kv)) d)
                       <= list_sum (map (fun x => List.length (f x)) d))%nat)
    end.
    { apply list_sum_map_le. eapply Forall_impl; [| exact IH].
      intros kv Hkv. cbv beta in *. rewrite !length_app. lia. }
    pose proof (Nat.le_trans _ _ _ Hle Hj). lia.
Qed.

(** Serializing a well-formed value and parsing the text gives the value
    back. *)
Theorem json_loads_dumps (v : pyval) :
  wf_val v = true -> json_loads (json_dumps v) = POk v [].
Proof.
  intros Hwf. unfold json_loads.
  destruct (json_dumps_head v) as (c & t & Heq & Hws & _ & _ & Hc).
  assert (Hbom : startswith [0xfeff] (json_dumps v) = false).
  { rewrite Heq. apply startswith_head_neq. lia. }
  rewrite Hbom.
  assert (Hskip : skip_ws (json_dumps v) = json_dumps v).
  { rewrite Heq. apply skip_ws_nonws, Hws. }
  rewrite Hskip. rewrite <- (List.app_nil_r (json_dumps v)) at 2.
  rewrite (scan_once_dumps v Hwf); [reflexivity | | exact I].
  pose proof (size_le_length v). lia.
Qed.

(* ================================================================== *)
(** ** The decoder builds well-formed values *)

Lemma hexval_range (c x : Z) : hexval c = Some x -> 0 <= x < 16.
Proof.
  unfold hexval, is_digit.
  destruct ((48 <=? c) && (c <=? 57)) eqn:E1.
  { apply andb_true_iff in E1 as [Ha Hb]. intros Hx; injection Hx as <-. lia. }
  destruct ((97 <=? c) && (c <=? 102)) eqn:E2.
  { apply andb_true_iff in E2 as [Ha Hb]. intros Hx; injection Hx as <-. lia. }
  destruct ((65 <=? c) && (c <=? 70)) eqn:E3; [| discriminate].
  apply andb_true_iff in E3 as [Ha Hb]. intros Hx; injection Hx as <-. lia.
Qed.

Lemma hex4_range (a b c d n : Z) : hex4 a b c d = Some n -> 0 <= n < 65536.
Proof.
  unfold hex4.
  destruct (hexval a) as [x|] eqn:Ha; [| discriminate].
  destruct (hexval b) as [y|] eqn:Hb; [| discriminate].
  destruct (hexval c) as [z|] eqn:Hc; [| discriminate].
  destruct (hexval d) as [w|] eqn:Hd; [| discriminate].
  apply hexval_range in Ha, Hb, Hc, Hd.
  intros H; injection H as <-. lia.
Qed.

Lemma unescape_range (e ch : Z) : unescape e = Some ch -> 0 <= ch < 128.
Proof.
  unfold unescape.
  repeat match goal with
         | |- context [if ?x then _ else _] => destruct x
         end; intros H; try discriminate; injection H as <-; lia.
Qed.

Lemma join_surrogates_range (uni uni2 : Z) :
  is_high_surrogate uni = true -> is_low_surrogate uni2 = true ->
  0x10000 <= join_surrogates uni uni2 <= 0x10ffff.
Proof.
  unfold is_high_surrogate, is_low_surrogate.
  rewrite !andb_true_iff, !Z.leb_le. intros [H1 H2] [H3 H4].
  unfold join_surrogates. rewrite Z.shiftl_mul_pow2 by lia.
  change (2 ^ 10) with 1024. rewrite lor_high_low by lia. lia.
Qed.

Lemma is_scalar_inv (c : Z) :
  is_scalar c = true -> 0 <= c <= 0x10ffff /\ is_surrogate c = false.
Proof.
  unfold is_scalar, is_code_point.
  rewrite !andb_true_iff, !Z.leb_le, negb_true_iff. tauto.
Qed.

Lemma surrogate_kinds (c : Z) :
  is_surrogate c = false ->
  is_high_surrogate c = false /\ is_low_surrogate c = false.
Proof.
  unfold is_surrogate, is_high_surrogate, is_low_surrogate.
  destruct (Z.leb_spec 0xd800 c), (Z.leb_spec c 0xdfff); cbn [andb];
    try discriminate; intros _; split; zb; reflexivity.
Qed.

Lemma string_token_code_point (s s' : text) (c : Z) :
  string_token s c s' -> forallb is_scalar s = true ->
  is_code_point c = true.
Proof.
  intros Htok Hs. unfold is_code_point. rewrite andb_true_iff, !Z.leb_le.
  destruct Htok as [c s' _ _ _ | e ch s' _ Hu | h1 h2 h3 h4 uni s' Hh _
                   | h1 h2 h3 h4 g1 g2 g3 g4 uni uni2 s' _ Hhigh _ Hlow].
  - cbn [forallb] in Hs. apply andb_true_iff in Hs as [Hc _].
    apply is_scalar_inv in Hc. lia.
  - apply unescape_range in Hu. lia.
  - apply hex4_range in Hh. lia.
  - pose proof (join_surrogates_range _ _ Hhigh Hlow). lia.
Qed.

Lemma string_token_high (s s' : text) (c : Z) :
  string_token s c s' -> forallb is_scalar s = true ->
  is_high_surrogate c = true -> low_escape_head s' = false.
Proof.
  intros Htok Hs Hc.
  destruct Htok as [c s' _ _ _ | e ch s' _ Hu | h1 h2 h3 h4 uni s' _ Hside
                   | h1 h2 h3 h4 g1 g2 g3 g4 uni uni2 s' _ Hhigh _ Hlow].
  - cbn [forallb] in Hs. apply andb_true_iff in Hs as [Hsc _].
    apply is_scalar_inv in Hsc as [_ Hsc].
    apply surrogate_kinds in Hsc. destruct Hsc; congruence.
  - apply unescape_range in Hu. unfold is_high_surrogate in Hc.
    apply andb_true_iff in Hc as [Hc _]. apply Z.leb_le in Hc. lia.
  - rewrite Hc in Hside. exact Hside.
  - pose proof (join_surrogates_range _ _ Hhigh Hlow).
    unfold is_high_surrogate in Hc.
    apply andb_true_iff in Hc as [_ Hc]. apply Z.leb_le in Hc. lia.
Qed.

Lemma string_token_low (s s' : text) (c : Z) :
  string_token s c s' -> forallb is_scalar s = true ->
  is_low_surrogate c = true -> low_escape_head s = true.
Proof.
  intros Htok Hs Hc.
  destruct Htok as [c s' _ _ _ | e ch s' _ Hu | h1 h2 h3 h4 uni s' Hh _
                   | h1 h2 h3 h4 g1 g2 g3 g4 uni uni2 s' _ Hhigh _ Hlow].
  - cbn [forallb] in Hs. apply andb_true_iff in Hs as [Hsc _].
    apply is_scalar_inv in Hsc as [_ Hsc].
    apply surrogate_kinds in Hsc. destruct Hsc; congruence.
  - apply unescape_range in Hu. unfold is_low_surrogate in Hc.
    apply andb_true_iff in Hc as [Hc _]. apply Z.leb_le in Hc. lia.
  - cbn [low_escape_head]. change (92 =? 92) with true.
    change (117 =? 117) with true. cbn [andb]. rewrite Hh. exact Hc.
  - pose proof (join_surrogates_range _ _ Hhigh Hlow).
    unfold is_low_surrogate in Hc.
    apply andb_true_iff in Hc as [_ Hc]. apply Z.leb_le in Hc. lia.
Qed.

Lemma scanstring_wf (k : text) :
  forall s r, scanstring s = POk k r -> forallb is_scalar s = true ->
              wf_str k = true.
Proof.
  unfold wf_str.
  induction k as [|c k IH]; intros s r H Hs; [reflexivity |].
  apply scanstring_inv in H as [[Hk _] | (c' & k' & s' & Hk & Htok & H)];
    [discriminate |].
  injection Hk as <- <-.
  assert (Hs' : forallb is_scalar s' = true).
  { eapply suffix_forallb; [| exact Hs].
    apply consumes_suffix, (string_token_consumes _ _ _ Htok). }
  specialize (IH s' r H Hs'). apply andb_true_iff in IH as [IHcp IHsp].
  cbn [forallb no_surrogate_pair].
  rewrite (string_token_code_point _ _ _ Htok Hs), IHcp, IHsp, andb_true_r.
  cbn [andb]. destruct k as [|c2 k2]; [reflexivity |].
  destruct (is_high_surrogate c) eqn:Hhigh; [| reflexivity].
  destruct (is_low_surrogate c2) eqn:Hlow; [| reflexivity].
  exfalso.
  apply scanstring_inv in H as [[Hk _] | (c2' & k2' & s2 & Hk & Htok2 & _)];
    [discriminate |].
  injection Hk as <- <-.
  pose proof (string_token_high _ _ _ Htok Hs Hhigh).
  pose proof (string_token_low _ _ _ Htok2 Hs' Hlow). congruence.
Qed.

Lemma dict_set_forallb (P : text * pyval -> bool) (k : text) (v : pyval)
      (d : dict) :
  (forall k', k' = k -> P (k', v) = true) ->
  forallb P d = true -> forallb P (dict_set k v d) = true.
Proof.
  intros Hkv. induction d as [|[k' v'] d IH]; cbn [dict_set forallb].
  - intros _. rewrite Hkv; reflexivity.
  - rewrite andb_true_iff. intros [H1 H2].
    destruct (text_eqb k k') eqn:E; cbn [forallb].
    + apply text_eqb_eq in E. rewrite H2, Hkv; auto.
    + rewrite H1, IH; auto.
Qed.

Lemma dict_set_keys (k : text) (v : pyval) (d : dict) :
  map fst (dict_set k v d)
  = if existsb (text_eqb k) (map fst d) then map fst d
    else map fst d ++ [k].
Proof.
  induction d as [|[k' v'] d IH]; cbn [dict_set map fst existsb app];
    [reflexivity |].
  destruct (text_eqb k k') eqn:E; cbn [orb map fst]; [reflexivity |].
  rewrite IH. destruct (existsb (text_eqb k) (map fst d)); reflexivity.
Qed.

Lemma text_eqb_sym (a b : text) : text_eqb a b = text_eqb b a.
Proof.
  destruct (text_eqb a b) eqn:E1, (text_eqb b a) eqn:E2; auto.
  - apply text_eqb_eq in E1. subst. rewrite text_eqb_refl in E2. discriminate.
  - apply text_eqb_eq in E2. subst. rewrite text_eqb_refl in E1. discriminate.
Qed.

Lemma distinct_snoc (ks : list text) (k : text) :
  distinct ks = true -> existsb (text_eqb k) ks = false ->
  distinct (ks ++ [k]) = true.
Proof.
  induction ks as [|x ks IH]; cbn [app distinct existsb]; [auto |].
  rewrite andb_true_iff, orb_false_iff, negb_true_iff.
  intros [Hx Hd] [Hkx Hk].
  rewrite existsb_app, Hx. cbn [existsb orb].
  rewrite text_eqb_sym, Hkx. cbn [orb negb andb]. apply IH; assumption.
Qed.

Lemma dict_set_distinct (k : text) (v : pyval) (d : dict) :
  distinct (map fst d) = true -> distinct (map fst (dict_set k v d)) = true.
Proof.
  intros H. rewrite dict_set_keys.
  destruct (existsb (text_eqb k) (map fst d)) eqn:E; [exact H |].
  apply distinct_snoc; assumption.
Qed.

Lemma dict_set_wf (k : text) (v : pyval) (d : dict) :
  wf_str k = true -> wf_val v = true -> wf_val (VDict d) = true ->
  wf_val (VDict (dict_set k v d)) = true.
Proof.
  intros Hk Hv. cbn [wf_val]. rewrite !andb_true_iff. intros [H1 H2]. split.
  - apply dict_set_forallb; [| exact H1].
    intros k' ->. cbn [fst snd]. rewrite Hk, Hv. reflexivity.
  - apply dict_set_distinct, H2.
Qed.

Lemma decoder_wf (fuel : nat) :
  (forall s v r, scan_once fuel s = POk v r ->
                 forallb is_scalar s = true -> wf_val v = true)
  /\ (forall s d v r, parse_object_loop fuel s d = POk v r ->
                      forallb is_scalar s = true ->
                      wf_val (VDict d) = true -> wf_val v = true)
  /\ (forall s acc v r, parse_array_loop fuel s acc = POk v r ->
                        forallb is_scalar s = true ->
                        forallb wf_val acc = true -> wf_val v = true).
Proof.
  induction fuel as [|fuel (IHs & IHo & IHa)];
    [repeat split; intros; discriminate |].
  split; [| split].
  - intros [|c r0] v r; [discriminate |]. cbn [scan_once]. intros H Hs.
    assert (Hr0 : forallb is_scalar r0 = true).
    { cbn [forallb] in Hs. apply andb_true_iff in Hs. tauto. }
    revert H. destruct (c =? 34).
    { intros H. apply pbind_ok in H as (k & r1 & Hk & H).
      injection H as <- <-. exact (scanstring_wf k _ _ Hk Hr0). }
    destruct (c =? 123).
    { pose proof (skip_ws_suffix r0) as Hsuf.
      destruct (skip_ws r0) as [|c' r']; [discriminate |].
      destruct (c' =? 125); [intros H; injection H as <- <-; reflexivity |].
      intros H. eapply IHo; [exact H | | reflexivity].
      exact (suffix_forallb _ _ _ Hsuf Hr0). }
    destruct (c =? 91).
    { pose proof (skip_ws_suffix r0) as Hsuf.
      destruct (skip_ws r0) as [|c' r']; [discriminate |].
      destruct (c' =? 93); [intros H; injection H as <- <-; reflexivity |].
      intros H. eapply IHa; [exact H | | reflexivity].
      exact (suffix_forallb _ _ _ Hsuf Hr0). }
    repeat match goal with
           | |- context [if ?x then _ else _] => destruct x
           end; try discriminate;
      try (intros H; injection H as <- <-; reflexivity).
    intros H. apply match_number_inv in H as [_ [z ->]]. reflexivity.
  - intros [|c r0] d v r; [discriminate |]. cbn [parse_object_loop].
    destruct (c =? 34); [| discriminate]. intros H Hs Hd.
    assert (Hr0 : forallb is_scalar r0 = true).
    { cbn [forallb] in Hs. apply andb_true_iff in Hs. tauto. }
    apply pbind_ok in H as (key & r1 & Hkey & H).
    pose proof (scanstring_wf key _ _ Hkey Hr0) as Hwk.
    apply scanstring_consumes in Hkey.
    pose proof (skip_ws_suffix r1) as H1.
    destruct (skip_ws r1) as [|c1 r2]; [discriminate |].
    destruct (c1 =? 58); [| discriminate].
    pose proof (skip_ws_suffix r2) as H2.
    apply pbind_ok in H as (val & r3 & Hval & H).
    assert (Hs2 : forallb is_scalar (skip_ws r2) = true).
    { eapply suffix_forallb; [| exact Hr0]. suffix_chain. }
    pose proof (IHs _ _ _ Hval Hs2) as Hwv.
    apply scan_once_consumes in Hval.
    pose proof (skip_ws_suffix r3) as H3.
    destruct (skip_ws r3) as [|c3 r4]; [discriminate |].
    pose proof (dict_set_wf key val d Hwk Hwv Hd) as Hd'.
    destruct (c3 =? 125); [injection H as <- <-; exact Hd' |].
    destruct (c3 =? 44); [| discriminate].
    pose proof (skip_ws_suffix r4) as H4.
    eapply IHo; [exact H | | exact Hd'].
    eapply suffix_forallb; [| exact Hs2]. suffix_chain.
  - intros s acc v r. cbn [parse_array_loop]. intros H Hs Hacc.
    apply pbind_ok in H as (val & r1 & Hval & H).
    pose proof (IHs _ _ _ Hval Hs) as Hwv.
    apply scan_once_consumes in Hval.
    pose proof (skip_ws_suffix r1) as H1.
    destruct (skip_ws r1) as [|c r2]; [discriminate |].
    assert (Hacc' : forallb wf_val (acc ++ [val]) = true).
    { rewrite forallb_app, Hacc. cbn. rewrite Hwv. reflexivity. }
    destruct (c =? 93); [injection H as <- <-; exact Hacc' |].
    destruct (c =? 44); [| discriminate].
    pose proof (skip_ws_suffix r2) as H2.
    eapply IHa; [exact H | | exact Hacc'].
    eapply suffix_forallb; [| exact Hs]. suffix_chain.
Qed.

Lemma json_loads_inv (s : text) (v : pyval) (r : text) :
  json_loads s = POk v r ->
  r = [] /\ exists r', scan_once (S (2 * List.length s)) (skip_ws s) = POk v r'.
Proof.
  unfold json_loads. destruct (startswith [0xfeff] s); [discriminate |].
  intros H. apply pbind_ok in H as (v' & r' & Hv & H).
  destruct (skip_ws r'); [| discriminate].
  injection H as <- <-. eauto.
Qed.

(** What [json.loads] returns on decoded text is well formed. *)
Theorem json_loads_wf (s : text) (v : pyval) (r : text) :
  json_loads s = POk v r -> forallb is_scalar s = true -> wf_val v = true.
Proof.
  intros H Hs. apply json_loads_inv in H as [_ [r' H]].
  apply (proj1 (decoder_wf _) _ _ _ H).
  exact (suffix_forallb _ _ _ (skip_ws_suffix s) Hs).
Qed.

(* ================================================================== *)
(** * The importer *)

(** ** The world the script runs in *)

(** Exceptions the script can meet; all derive from [Exception]. *)
Inductive exn : Type :=
| EOSError              (* open(): the file cannot be opened *)
| EUnicodeDecodeError   (* f.read(): the bytes do not decode *)
| EJSONDecodeError      (* json.load *)
| EAttributeError       (* workflow_data.get on a non-dict *)
| EOperationalError     (* sqlite3: cannot open, no such table, commit *)
| EProgrammingError     (* sqlite3: parameter of an unsupported type *)
| EOverflowError        (* sqlite3: int outside 64 bits *)
| EUnicodeEncodeError   (* sqlite3: str with a surrogate *)
| EIntegrityError.      (* sqlite3: a constraint of the table fails *)

(** A value bound to a statement parameter. *)
Inductive sqlval : Type :=
| SqlNull
| SqlInt (z : Z)
| SqlText (s : text).

(** A row of the [workflow] table, as the INSERT of the script binds it;
    [row_id] is the rowid the database assigns. Timestamps are instants
    of the clock. *)
Record Row : Type := {
  row_id : Z;
  row_name : sqlval;
  row_nodes : text;
  row_connections : text;
  row_active : Z;
  row_createdAt : nat;
  row_updatedAt : nat
}.

(** Modelled from the spec: the database file and its [workflow] table,
    which the script assumes and never creates (the schema is not in the
    repository). [db_opens]: [sqlite3.connect] succeeds. [db_table]: the
    rows of [workflow], [None] when the table is missing. [db_rowid]: the
    identifier the database assigns to a new row of the table, which the
    script only reads back. [db_admits]: the constraints of the table on
    a new row. [db_commits]: [commit] succeeds. *)
Record Database : Type := {
  db_opens : bool;
  db_table : option (list Row);
  db_rowid : list Row -> Z;
  db_admits : list Row -> Row -> bool;
  db_commits : bool
}.

(** The lines the script prints, one constructor per [print]. *)
Inductive line : Type :=
| PRule                                   (* the ruler *)
| PTitle                                  (* N8n Workflow Database Import *)
| PNoFilesFound                           (* No workflow files found ... *)
| PFound (n : nat)                        (* Found n workflow(s) *)
| PDatabaseNotFound                       (* N8n database not found: ... *)
| PStartN8n                               (* Start n8n first: n8n start *)
| PUsingDatabase                          (* Using database: ... *)
| PFailedToProcess (name : text) (e : exn) (* Failed to process name: e *)
| PImportComplete (n : Z)                 (* Import complete: n ... *)
| PNextSteps                              (* Next steps: *)
| PStep (n : nat)                         (* the four numbered steps *)
| PDbMissing                              (* Database not found: db_path *)
| PMakeSure                               (* Make sure n8n has been ... *)
| PImported (name : pyval) (id : Z)       (* Imported: name (ID: id) *)
| PErrorImporting (e : exn).              (* Error importing workflow: e *)

(** What the script asks of the operating system, in order. *)
Inductive event : Type :=
| EvExists (found : bool)   (* os.path.exists(N8N_DB) *)
| EvOpen (name : text)      (* open(filepath) *)
| EvConnect                 (* sqlite3.connect *)
| EvExecute                 (* cursor.execute *)
| EvCommit.                 (* conn.commit *)

Record World : Type := {
  w_dir : list text;              (* the entries of n8n-workflows/ *)
  w_files : text -> option text;  (* an entry's content; None: unreadable *)
  w_db : option Database;         (* ~/.n8n/database.sqlite; None: absent *)
  w_clock : nat;                  (* datetime.now() *)
  w_stdout : list line;
  w_trace : list event
}.

(** ** A monad for state and exceptions *)

Inductive outcome (A : Type) : Type :=
| Ret (a : A)
| Raise (e : exn)
| Unmodelled.       (* the run left the embedding (a float literal) *)
Arguments Ret {A} a.
Arguments Raise {A} e.
Arguments Unmodelled {A}.

Definition M (A : Type) : Type := World -> outcome A * World.

Definition ret {A : Type} (a : A) : M A := fun w => (Ret a, w).
Definition raise {A : Type} (e : exn) : M A := fun w => (Raise e, w).

Definition bind {A B : Type} (m : M A) (k : A -> M B) : M B :=
  fun w =>
    match m w with
    | (Ret a, w') => k a w'
    | (Raise e, w') => (Raise e, w')
    | (Unmodelled, w') => (Unmodelled, w')
    end.

(** [try: body except Exception as e: handler] *)
Definition try_except {A : Type} (body : M A) (handler : exn -> M A) : M A :=
  fun w =>
    match body w with
    | (Raise e, w') => handler e w'
    | r => r
    end.

Notation "x <- m ;; k" := (bind m (fun x => k))
  (at level 61, m at next level, right associativity).
Notation "m ;;; k" := (bind m (fun _ => k))
  (at level 61, right associativity).

Definition print (l : line) : M unit :=
  fun w => (Ret tt, {| w_dir := w_dir w; w_files := w_files w; w_db := w_db w;
                       w_clock := w_clock w;
                       w_stdout := w_stdout w ++ [l];
                       w_trace := w_trace w |}).

Definition log (e : event) : M unit :=
  fun w => (Ret tt, {| w_dir := w_dir w; w_files := w_files w; w_db := w_db w;
                       w_clock := w_clock w;
                       w_stdout := w_stdout w;
                       w_trace := w_trace w ++ [e] |}).

(** The paths the script names. *)
Inductive path : Type := N8N_DB.

(** [os.path.exists(db_path)] *)
Definition os_path_exists (p : path) : M bool :=
  fun w =>
    let found := match w_db w with Some _ => true | None => false end in
    (log (EvExists found) ;;; ret found) w.

(** [datetime.now().isoformat()]: reads the clock, which then moves on. *)
Definition datetime_now : M nat :=
  fun w => (Ret (w_clock w),
            {| w_dir := w_dir w; w_files := w_files w; w_db := w_db w;
               w_clock := S (w_clock w);
               w_stdout := w_stdout w; w_trace := w_trace w |}).

(** ** sqlite3 *)

(** How [sqlite3] binds a Python object to a parameter. *)
Definition bind_param (v : pyval) : exn + sqlval :=
  match v with
  | VNone => inr SqlNull
  | VBool b => inr (SqlInt (if b then 1 else 0))
  | VInt z =>
      if (- 2 ^ 63 <=? z) && (z <? 2 ^ 63) then inr (SqlInt z)
      else inl EOverflowError
  | VStr s =>
      if forallb (fun c => negb (is_surrogate c)) s then inr (SqlText s)
      else inl EUnicodeEncodeError
  | VList _ | VDict _ => inl EProgrammingError
  end.

(** [sqlite3.connect(db_path)] *)
Definition sqlite3_connect (p : path) : M unit :=
  log EvConnect ;;;
  fun w =>
    match w_db w with
    | Some db => if db_opens db then (Ret tt, w) else (Raise EOperationalError, w)
    | None => (Raise EOperationalError, w)
    end.

(** [cursor.execute('INSERT INTO workflow (name, nodes, connections,
    active, createdAt, updatedAt) VALUES (?, ?, ?, ?, ?, ?)', params)]:
    the statement is prepared, the parameters are bound, the database
    assigns the identifier, the row is checked; the result is the row,
    pending until the commit. *)
Definition cursor_execute (name : pyval) (nodes connections : text)
           (active : Z) (createdAt updatedAt : nat) : M Row :=
  log EvExecute ;;;
  fun w =>
    match w_db w with
    | None => (Raise EOperationalError, w)
    | Some db =>
        match db_table db with
        | None => (Raise EOperationalError, w)      (* no such table *)
        | Some rows =>
            match bind_param name with
            | inl e => (Raise e, w)
            | inr nm =>
                let row := {| row_id := db_rowid db rows; row_name := nm;
                              row_nodes := nodes;
                              row_connections := connections;
                              row_active := active;
                              row_createdAt := createdAt;
                              row_updatedAt := updatedAt |} in
                if db_admits db rows row then (Ret row, w)
                else (Raise EIntegrityError, w)
            end
        end
    end.

(** [conn.commit()]: the pending row becomes the last row of the table. *)
Definition conn_commit (pending : Row) : M unit :=
  log EvCommit ;;;
  fun w =>
    match w_db w with
    | None => (Raise EOperationalError, w)
    | Some db =>
        match db_table db, db_commits db with
        | Some rows, true =>
            (Ret tt,
             {| w_dir := w_dir w; w_files := w_files w;
                w_db := Some {| db_opens := db_opens db;
                                db_table := Some (rows ++ [pending]);
                                db_rowid := db_rowid db;
                                db_admits := db_admits db;
                                db_commits := db_commits db |};
                w_clock := w_clock w;
                w_stdout := w_stdout w; w_trace := w_trace w |})
        | _, _ => (Raise EOperationalError, w)
        end
    end.

(** ** The script *)

(** [load_workflow(filepath)]: [open], [read] (decoding fails on a unit
    that is not a Unicode scalar value), [json.load]. *)
Definition load_workflow (filepath : text) : M pyval :=
  log (EvOpen filepath) ;;;
  fun w =>
    match w_files w filepath with
    | None => (Raise EOSError, w)
    | Some units =>
        if forallb is_scalar units then
          match json_loads units with
          | POk v _ => (Ret v, w)
          | PErr => (Raise EJSONDecodeError, w)
          | PFloat | PFuel => (Unmodelled, w)
          end
        else (Raise EUnicodeDecodeError, w)
    end.

(** [workflow_data.get]: only a dict has the attribute. *)
Definition attr_get (workflow_data : pyval) : M dict :=
  match workflow_data with
  | VDict d => ret d
  | _ => raise EAttributeError
  end.

Definition import_workflow_to_db (db_path : path) (workflow_data : pyval)
  : M bool :=
  found <- os_path_exists db_path ;;
  if negb found then
    print PDbMissing ;;; print PMakeSure ;;; ret false
  else
    try_except
      (sqlite3_connect db_path ;;;
       now <- datetime_now ;;
       d <- attr_get workflow_data ;;
       let workflow_name :=
         dict_get d (str "name") (VStr (str "Untitled Workflow")) in
       let nodes := json_dumps (dict_get d (str "nodes") (VList [])) in
       let connections :=
         json_dumps (dict_get d (str "connections") (VDict [])) in
       let active := dict_get d (str "active") (VBool false) in
       row <- cursor_execute workflow_name nodes connections
                (if truthy active then 1 else 0) now now ;;
       conn_commit row ;;;
       let workflow_id := row_id row in
       print (PImported workflow_name workflow_id) ;;;
       ret true)
      (fun e => print (PErrorImporting e) ;;; ret false).

(** [sorted]: a stable insertion sort on Python's [str] order. *)
Fixpoint insert_sorted (x : text) (l : list text) : list text :=
  match l with
  | [] => [x]
  | y :: l' => if text_leb x y then x :: l else y :: insert_sorted x l'
  end.

Fixpoint sorted (l : list text) : list text :=
  match l with
  | [] => []
  | x :: l' => insert_sorted x (sorted l')
  end.

(** [workflows_dir.glob('*-workflow.json')] *)
Definition glob (w : World) : list text :=
  filter (endswith (str "-workflow.json")) (w_dir w).

(** The body of the [for] loop of [main]: one file, with its own
    [try]/[except]. *)
Definition loop_body (workflow_file : text) (imported_count : Z) : M Z :=
  try_except
    (workflow_data <- load_workflow workflow_file ;;
     ok <- import_workflow_to_db N8N_DB workflow_data ;;
     ret (if ok then imported_count + 1 else imported_count))
    (fun e =>
       print (PFailedToProcess workflow_file e) ;;; ret imported_count).

(** The [for] loop of [main]. *)
Fixpoint import_each (workflow_files : list text) (imported_count : Z)
  : M Z :=
  match workflow_files with
  | [] => ret imported_count
  | workflow_file :: rest =>
      count <- loop_body workflow_file imported_count ;;
      import_each rest count
  end.

Definition main : M Z :=
  print PRule ;;; print PTitle ;;; print PRule ;;;
  fun w =>
    let workflow_files := sorted (glob w) in
    match workflow_files with
    | [] => (print PNoFilesFound ;;; ret 1) w
    | _ :: _ =>
        (print (PFound (List.length workflow_files)) ;;;
         found <- os_path_exists N8N_DB ;;
         if negb found then
           print PDatabaseNotFound ;;; print PStartN8n ;;; ret 1
         else
           print PUsingDatabase ;;;
           imported_count <- import_each workflow_files 0 ;;
           print PRule ;;; print (PImportComplete imported_count) ;;;
           print PRule ;;;
           print PNextSteps ;;; print (PStep 1) ;;; print (PStep 2) ;;;
           print (PStep 3) ;;; print (PStep 4) ;;;
           ret 0) w
    end.

(** [exit(main())]: the exit status of the process; an uncaught
    exception would end it with status 1. *)
Definition exit_status (o : outcome Z) : option Z :=
  match o with
  | Ret n => Some n
  | Raise _ => Some 1
  | Unmodelled => None
  end.

(* ================================================================== *)
(** ** What a run leaves behind *)

(** The rows of the [workflow] table. *)
Definition rows_of (w : World) : list Row :=
  match w_db w with
  | Some db => match db_table db with Some rows => rows | None => [] end
  | None => []
  end.

(** The files opened, in order. *)
Definition opened (tr : list event) : list text :=
  flat_map (fun e => match e with EvOpen n => [n] | _ => [] end) tr.

(** The number of existence checks of the database file. *)
Definition count_exists (tr : list event) : nat :=
  List.length (filter (fun e => match e with EvExists _ => true | _ => false end) tr).

(** The events that touch the database file. *)
Definition database_events (tr : list event) : list event :=
  filter (fun e => match e with EvOpen _ => false | _ => true end) tr.

(** The per-file error messages. *)
Definition is_file_error (l : line) : bool :=
  match l with
  | PFailedToProcess _ _ | PErrorImporting _ => true
  | _ => false
  end.

Definition count_file_errors (out : list line) : nat :=
  List.length (filter is_file_error out).

(** The success messages. *)
Definition is_imported (l : line) : bool :=
  match l with PImported _ _ => true | _ => false end.

(** The file is readable text that [json.load] accepts. *)
Definition loads (w : World) (f : text) : option pyval :=
  match w_files w f with
  | Some units =>
      if forallb is_scalar units then
        match json_loads units with POk v _ => Some v | _ => None end
      else None
  | None => None
  end.

(** The file does not take the run out of the embedding. *)
Definition in_model (w : World) (f : text) : bool :=
  match w_files w f with
  | Some units =>
      if forallb is_scalar units then
        match json_loads units with PFloat | PFuel => false | _ => true end
      else true
  | None => true
  end.

(** The database of a world up to the rows of its table. *)
Definition same_database (w w' : World) : Prop :=
  match w_db w, w_db w' with
  | None, None => True
  | Some db, Some db' =>
      db_opens db' = db_opens db /\ db_rowid db' = db_rowid db
      /\ db_admits db' = db_admits db
      /\ db_commits db' = db_commits db
      /\ (db_table db = None <-> db_table db' = None)
  | _, _ => False
  end.

(** A world that differs in nothing the script reads but the table, the
    clock and what was printed and logged. *)
Definition same_inputs (w w' : World) : Prop :=
  w_dir w' = w_dir w /\ w_files w' = w_files w /\ same_database w w'.

Lemma same_inputs_refl (w : World) : same_inputs w w.
Proof.
  unfold same_inputs, same_database. repeat split; auto;
    destruct (w_db w); auto; repeat split; auto; tauto.
Qed.

Lemma same_inputs_trans (a b c : World) :
  same_inputs a b -> same_inputs b c -> same_inputs a c.
Proof.
  unfold same_inputs, same_database.
  intros (H1 & H2 & H3) (H4 & H5 & H6).
  repeat split; try congruence.
  destruct (w_db a), (w_db b), (w_db c); try contradiction; auto.
  destruct H3 as (? & ? & ? & ? & ?), H6 as (? & ? & ? & ? & ?).
  repeat split; try congruence; tauto.
Qed.

Ltac run_monad :=
  unfold import_workflow_to_db, loop_body, load_workflow, os_path_exists,
    sqlite3_connect, cursor_execute, conn_commit, datetime_now, attr_get,
    try_except, bind, ret, raise, print, log.

Ltac break_match :=
  match goal with
  | |- context [match ?x with _ => _ end] => destruct x eqn:?
  | |- context [if ?x then _ else _] => destruct x eqn:?
  end.

Lemma opened_app (a b : list event) : opened (a ++ b) = opened a ++ opened b.
Proof. apply flat_map_app. Qed.

Lemma count_exists_app (a b : list event) :
  count_exists (a ++ b) = (count_exists a + count_exists b)%nat.
Proof. unfold count_exists. rewrite filter_app, length_app. reflexivity. Qed.

Lemma database_events_app (a b : list event) :
  database_events (a ++ b) = database_events a ++ database_events b.
Proof. apply filter_app. Qed.

Lemma count_file_errors_app (a b : list line) :
  count_file_errors (a ++ b)
  = (count_file_errors a + count_file_errors b)%nat.
Proof. unfold count_file_errors. rewrite filter_app, length_app. reflexivity. Qed.

Ltac observe :=
  cbn [w_dir w_files w_db w_clock w_stdout w_trace] in *;
  repeat rewrite opened_app; repeat rewrite count_exists_app;
  repeat rewrite count_file_errors_app; repeat rewrite database_events_app.

Ltac facts_done :=
  repeat split; auto; try tauto; try discriminate;
  try (exists []; rewrite List.app_nil_r; split; reflexivity);
  try (eexists [_]; split; reflexivity);
  try (cbn; lia);
  try (cbn; rewrite ?List.app_nil_r; reflexivity);
  try (eexists; rewrite <- ?app_assoc; reflexivity);
  try (intros _; eexists; split; [reflexivity | split; reflexivity]);
  try (intros Habs; exfalso; apply Habs; reflexivity).

(** Everything [import_workflow_to_db] can do, whatever the database. *)
Lemma import_facts (v : pyval) (w : World) :
  exists b w',
    import_workflow_to_db N8N_DB v w = (Ret b, w')
    /\ same_inputs w w'
    /\ (exists new, rows_of w' = rows_of w ++ new
                    /\ List.length new = if b then 1%nat else 0%nat)
    /\ opened (w_trace w') = opened (w_trace w)
    /\ count_exists (w_trace w') = S (count_exists (w_trace w))
    /\ (exists evs, w_trace w' = w_trace w ++ evs)
    /\ (w_db w <> None ->
        exists l, w_stdout w' = w_stdout w ++ [l]
                  /\ is_imported l = b /\ is_file_error l = negb b).
Proof.
  run_monad. cbn [negb].
  destruct (w_db w) as [db|] eqn:Hdb; cbn [negb];
    observe; rewrite ?Hdb.
  2:{ eexists _, _. split; [reflexivity |].
      unfold same_inputs, same_database, rows_of. observe. rewrite ?Hdb.
      facts_done. }
  destruct (db_opens db) eqn:Hopen.
  2:{ eexists _, _. split; [reflexivity |].
      unfold same_inputs, same_database, rows_of. observe. rewrite ?Hdb.
      facts_done. }
  destruct v as [| bv | z | s | l | d];
    try (eexists _, _; split; [reflexivity |];
         unfold same_inputs, same_database, rows_of; observe; rewrite ?Hdb;
         facts_done).
  cbn beta iota. observe. rewrite ?Hdb.
  destruct (db_table db) as [rows|] eqn:Htab.
  2:{ eexists _, _. split; [reflexivity |].
      unfold same_inputs, same_database, rows_of. observe. rewrite ?Hdb, ?Htab.
      facts_done. }
  destruct (bind_param _) as [e | nm] eqn:Hbind.
  { eexists _, _. split; [reflexivity |].
    unfold same_inputs, same_database, rows_of. observe. rewrite ?Hdb, ?Htab.
    facts_done. }
  destruct (db_admits db rows _) eqn:Hadm.
  2:{ eexists _, _. split; [reflexivity |].
      unfold same_inputs, same_database, rows_of. observe. rewrite ?Hdb, ?Htab.
      facts_done. }
  observe. rewrite ?Hdb, ?Htab.
  destruct (db_commits db) eqn:Hcom.
  2:{ eexists _, _. split; [reflexivity |].
      unfold same_inputs, same_database, rows_of. observe. rewrite ?Hdb, ?Htab.
      facts_done. }
  eexists _, _. split; [reflexivity |].
  unfold same_inputs, same_database, rows_of. observe. rewrite ?Hdb, ?Htab.
  facts_done.
Qed.

(** The row that the INSERT of [import_workflow_to_db] binds. *)
Definition workflow_row (db : Database) (rows : list Row) (d : dict)
           (nm : sqlval) (now : nat) : Row :=
  {| row_id := db_rowid db rows;
     row_name := nm;
     row_nodes := json_dumps (dict_get d (str "nodes") (VList []));
     row_connections :=
       json_dumps (dict_get d (str "connections") (VDict []));
     row_active :=
       if truthy (dict_get d (str "active") (VBool false)) then 1 else 0;
     row_createdAt := now;
     row_updatedAt := now |}.

(** The workflow's name, as the script reads it. *)
Definition workflow_name (d : dict) : pyval :=
  dict_get d (str "name") (VStr (str "Untitled Workflow")).

(** The world after a successful import. *)
Definition imported_world (w : World) (db : Database) (rows : list Row)
           (d : dict) (nm : sqlval) : World :=
  {| w_dir := w_dir w; w_files := w_files w;
     w_db := Some {| db_opens := db_opens db;
                     db_table :=
                       Some (rows ++ [workflow_row db rows d nm (w_clock w)]);
                     db_rowid := db_rowid db;
                     db_admits := db_admits db;
                     db_commits := db_commits db |};
     w_clock := S (w_clock w);
     w_stdout := w_stdout w ++ [PImported (workflow_name d) (db_rowid db rows)];
     w_trace := w_trace w ++ [EvExists true; EvConnect; EvExecute; EvCommit] |}.

(** When the database works and takes the row, the import succeeds and
    leaves exactly [imported_world]. *)
Lemma import_success (w : World) (db : Database) (rows : list Row)
      (d : dict) (nm : sqlval) :
  w_db w = Some db -> db_opens db = true -> db_table db = Some rows ->
  db_commits db = true ->
  bind_param (workflow_name d) = inr nm ->
  db_admits db rows (workflow_row db rows d nm (w_clock w)) = true ->
  import_workflow_to_db N8N_DB (VDict d) w
  = (Ret true, imported_world w db rows d nm).
Proof.
  intros Hdb Hopen Htab Hcom Hbind Hadm.
  unfold workflow_name, workflow_row in *.
  run_monad.
  repeat (cbn [w_dir w_files w_db w_clock w_stdout w_trace negb];
          rewrite ?Hdb, ?Hopen, ?Htab, ?Hbind, ?Hadm, ?Hcom).
  unfold imported_world, workflow_row, workflow_name.
  cbn [row_id]. rewrite ?Hopen, ?Hcom, <- ?app_assoc. reflexivity.
Qed.

(** A value that is no dict is never imported. *)
Lemma import_not_dict (w : World) (v : pyval) :
  (forall d, v <> VDict d) ->
  exists w', import_workflow_to_db N8N_DB v w = (Ret false, w')
             /\ rows_of w' = rows_of w.
Proof.
  intros Hv. destruct (import_facts v w) as (b & w' & Hrun & _ & Hrows & _).
  assert (b = false) as ->.
  { revert Hrun. run_monad. observe.
    destruct (w_db w) as [db|]; cbn [negb]; observe;
      [| intros H; injection H as <- _; reflexivity].
    destruct (db_opens db); [| intros H; injection H as <- _; reflexivity].
    destruct v; try (intros H; injection H as <- _; reflexivity).
    exfalso. eapply Hv. reflexivity. }
  exists w'. split; [exact Hrun |].
  destruct Hrows as (new & -> & Hlen). destruct new; [| discriminate].
  apply List.app_nil_r.
Qed.

(** ** One file *)

Definition opened_world (f : text) (w : World) : World :=
  {| w_dir := w_dir w; w_files := w_files w; w_db := w_db w;
     w_clock := w_clock w; w_stdout := w_stdout w;
     w_trace := w_trace w ++ [EvOpen f] |}.

Definition load_outcome (w : World) (f : text) : outcome pyval :=
  match w_files w f with
  | None => Raise EOSError
  | Some units =>
      if forallb is_scalar units then
        match json_loads units with
        | POk v _ => Ret v
        | PErr => Raise EJSONDecodeError
        | PFloat | PFuel => Unmodelled
        end
      else Raise EUnicodeDecodeError
  end.

Lemma load_workflow_spec (f : text) (w : World) :
  load_workflow f w = (load_outcome w f, opened_world f w).
Proof.
  unfold load_workflow, load_outcome, opened_world, bind, log.
  cbn [w_files].
  destruct (w_files w f) as [units|]; [| reflexivity].
  destruct (forallb is_scalar units); [| reflexivity].
  destruct (json_loads units); reflexivity.
Qed.

Lemma load_outcome_loads (w : World) (f : text) (v : pyval) :
  load_outcome w f = Ret v <-> loads w f = Some v.
Proof.
  unfold load_outcome, loads.
  destruct (w_files w f) as [units|]; [| split; discriminate].
  destruct (forallb is_scalar units); [| split; discriminate].
  destruct (json_loads units); split; intros H; try discriminate;
    injection H as <-; reflexivity.
Qed.

Lemma load_outcome_unmodelled (w : World) (f : text) :
  in_model w f = true -> load_outcome w f <> Unmodelled.
Proof.
  unfold load_outcome, in_model.
  destruct (w_files w f) as [units|]; [| discriminate].
  destruct (forallb is_scalar units); [| discriminate].
  destruct (json_loads units); discriminate.
Qed.

Lemma load_outcome_raise (w : World) (f : text) (e : exn) :
  load_outcome w f = Raise e -> loads w f = None.
Proof.
  unfold load_outcome, loads.
  destruct (w_files w f) as [units|]; [| reflexivity].
  destruct (forallb is_scalar units); [| reflexivity].
  destruct (json_loads units); try reflexivity; discriminate.
Qed.

(** The loop body on a file that loads. *)
Lemma loop_body_loaded (f : text) (c : Z) (w : World) (v : pyval)
      (b : bool) (w' : World) :
  loads w f = Some v ->
  import_workflow_to_db N8N_DB v (opened_world f w) = (Ret b, w') ->
  loop_body f c w = (Ret (if b then c + 1 else c), w').
Proof.
  intros Hload Hrun. apply load_outcome_loads in Hload.
  unfold loop_body, try_except, bind at 1.
  rewrite load_workflow_spec, Hload. unfold bind. rewrite Hrun. reflexivity.
Qed.

(** The loop body on a file that does not load. *)
Lemma loop_body_failed (f : text) (c : Z) (w : World) (e : exn) :
  load_outcome w f = Raise e ->
  loop_body f c w
  = (Ret c,
     {| w_dir := w_dir w; w_files := w_files w; w_db := w_db w;
        w_clock := w_clock w;
        w_stdout := w_stdout w ++ [PFailedToProcess f e];
        w_trace := w_trace w ++ [EvOpen f] |}).
Proof.
  intros Hload. unfold loop_body, try_except, bind at 1.
  rewrite load_workflow_spec, Hload. reflexivity.
Qed.

(** What one turn of the loop does, whatever the file and the database. *)
Lemma loop_body_facts (f : text) (c : Z) (w : World) :
  in_model w f = true ->
  exists c' w',
    loop_body f c w = (Ret c', w')
    /\ same_inputs w w'
    /\ (exists new, rows_of w' = rows_of w ++ new
                    /\ (List.length new <= 1)%nat
                    /\ c' = c + Z.of_nat (List.length new)
                    /\ (w_db w <> None ->
                        (count_file_errors (w_stdout w') + List.length new
                         = count_file_errors (w_stdout w) + 1)%nat))
    /\ opened (w_trace w') = opened (w_trace w) ++ [f]
    /\ (exists evs, w_trace w' = w_trace w ++ evs)
    /\ count_exists (w_trace w')
       = (count_exists (w_trace w)
          + match loads w f with Some _ => 1 | None => 0 end)%nat.
Proof.
  intros Hmodel.
  destruct (load_outcome w f) as [v | e |] eqn:Hload.
  - pose proof (proj1 (load_outcome_loads w f v) Hload) as Hloads.
    destruct (import_facts v (opened_world f w))
      as (b & w' & Hrun & Hsame & (new & Hrows & Hlen) & Hop & Hex
          & (evs & Hevs) & Hout).
    exists (if b then c + 1 else c), w'.
    split; [exact (loop_body_loaded f c w v b w' Hloads Hrun) |].
    split; [exact Hsame |]. rewrite Hloads.
    split; [| split; [| split]].
    + exists new. split; [exact Hrows |].
      split; [destruct b; lia |].
      split; [destruct b; rewrite Hlen; cbn; lia |].
      intros Hdb. destruct (Hout Hdb) as (l & Hl & _ & Herr).
      rewrite Hl, count_file_errors_app. cbn [opened_world w_stdout].
      unfold count_file_errors at 2. cbn [filter]. rewrite Herr, Hlen.
      destruct b; cbn; lia.
    + rewrite Hop. cbn [opened_world w_trace]. rewrite opened_app.
      reflexivity.
    + exists (EvOpen f :: evs). rewrite Hevs. cbn [opened_world w_trace].
      rewrite <- app_assoc. reflexivity.
    + rewrite Hex. cbn [opened_world w_trace]. rewrite count_exists_app.
      cbn. lia.
  - rewrite (load_outcome_raise w f e Hload).
    eexists _, _. split; [exact (loop_body_failed f c w e Hload) |].
    split; [| split; [| split; [| split]]].
    + unfold same_inputs, same_database. cbn.
      destruct (w_db w); repeat split; auto; tauto.
    + exists []. unfold rows_of. cbn [w_db w_stdout].
      rewrite List.app_nil_r, count_file_errors_app.
      repeat split; auto; cbn; lia.
    + cbn [w_trace]. rewrite opened_app. reflexivity.
    + eexists. reflexivity.
    + cbn [w_trace]. rewrite count_exists_app. cbn. lia.
  - exfalso. exact (load_outcome_unmodelled w f Hmodel Hload).
Qed.

(** A successful import is exactly the one of [import_success]. *)
Lemma import_true_inv (v : pyval) (w w' : World) :
  import_workflow_to_db N8N_DB v w = (Ret true, w') ->
  exists d db rows nm,
    v = VDict d /\ w_db w = Some db /\ db_opens db = true
    /\ db_table db = Some rows /\ db_commits db = true
    /\ bind_param (workflow_name d) = inr nm
    /\ db_admits db rows (workflow_row db rows d nm (w_clock w)) = true
    /\ w' = imported_world w db rows d nm.
Proof.
  run_monad. cbn [w_dir w_files w_db w_clock w_stdout w_trace].
  destruct (w_db w) as [db|] eqn:Hdb; cbn [negb]; [| discriminate].
  cbn [w_dir w_files w_db w_clock w_stdout w_trace]. rewrite ?Hdb.
  destruct (db_opens db) eqn:Hopen; [| discriminate].
  destruct v as [| bv | z | s | l | d]; try discriminate.
  cbn [w_dir w_files w_db w_clock w_stdout w_trace]. rewrite ?Hdb.
  destruct (db_table db) as [rows|] eqn:Htab; [| discriminate].
  destruct (bind_param _) as [e | nm] eqn:Hbind; [discriminate |].
  destruct (db_admits db rows _) eqn:Hadm; [| discriminate].
  cbn [w_dir w_files w_db w_clock w_stdout w_trace]. rewrite ?Hdb, ?Htab.
  destruct (db_commits db) eqn:Hcom; [| discriminate].
  intros H. injection H as <-.
  exists d, db, rows, nm. repeat split; auto.
  unfold imported_world, workflow_row, workflow_name. cbn [row_id].
  rewrite ?Hopen, ?Hcom, <- ?app_assoc. reflexivity.
Qed.

(** ** The loop *)

Lemma same_inputs_loads (w w' : World) (f : text) :
  same_inputs w w' -> loads w' f = loads w f.
Proof. intros (_ & Hf & _). unfold loads. rewrite Hf. reflexivity. Qed.

Lemma same_inputs_in_model (w w' : World) (f : text) :
  same_inputs w w' -> in_model w' f = in_model w f.
Proof. intros (_ & Hf & _). unfold in_model. rewrite Hf. reflexivity. Qed.

Lemma same_inputs_db (w w' : World) :
  same_inputs w w' -> (w_db w <> None <-> w_db w' <> None).
Proof.
  intros (_ & _ & H). unfold same_database in H.
  destruct (w_db w), (w_db w'); try contradiction; split; congruence.
Qed.

Lemma forallb_in_model_same (w w' : World) (files : list text) :
  same_inputs w w' ->
  forallb (in_model w') files = forallb (in_model w) files.
Proof.
  intros H. induction files as [|f files IH]; [reflexivity |].
  cbn [forallb]. rewrite IH, (same_inputs_in_model w w' f H). reflexivity.
Qed.

(** The files of a list that load. *)
Definition loaded_files (w : World) (files : list text) : list text :=
  filter (fun f => match loads w f with Some _ => true | None => false end)
         files.

Lemma loaded_files_same (w w' : World) (files : list text) :
  same_inputs w w' -> loaded_files w' files = loaded_files w files.
Proof.
  intros H. unfold loaded_files. apply filter_ext.
  intros f. rewrite (same_inputs_loads w w' f H). reflexivity.
Qed.

(** What the loop does, whatever the files and the database. *)
Lemma import_each_facts (files : list text) :
  forall (c : Z) (w : World),
    forallb (in_model w) files = true ->
    exists c' w',
      import_each files c w = (Ret c', w')
      /\ same_inputs w w'
      /\ (exists new, rows_of w' = rows_of w ++ new
                      /\ c' = c + Z.of_nat (List.length new)
                      /\ (w_db w <> None ->
                          (count_file_errors (w_stdout w') + List.length new
                           = count_file_errors (w_stdout w)
                             + List.length files)%nat))
      /\ opened (w_trace w') = opened (w_trace w) ++ files
      /\ (exists evs, w_trace w' = w_trace w ++ evs)
      /\ count_exists (w_trace w')
         = (count_exists (w_trace w)
            + List.length (loaded_files w files))%nat.
Proof.
  induction files as [|f files IH]; intros c w Hmodel.
  - exists c, w. cbn [import_each]. unfold ret.
    split; [reflexivity |]. split; [apply same_inputs_refl |].
    split; [| split; [| split]].
    + exists []. rewrite List.app_nil_r. cbn. repeat split; lia.
    + rewrite List.app_nil_r. reflexivity.
    + exists []. rewrite List.app_nil_r. reflexivity.
    + cbn. lia.
  - cbn [forallb] in Hmodel. apply andb_true_iff in Hmodel as [Hf Hfiles].
    destruct (loop_body_facts f c w Hf)
      as (c1 & w1 & Hrun1 & Hsame1 & (new1 & Hrows1 & Hle1 & Hc1 & Hout1)
          & Hop1 & (evs1 & Hevs1) & Hex1).
    rewrite <- (forallb_in_model_same w w1 files Hsame1) in Hfiles.
    destruct (IH c1 w1 Hfiles)
      as (c2 & w2 & Hrun2 & Hsame2 & (new2 & Hrows2 & Hc2 & Hout2)
          & Hop2 & (evs2 & Hevs2) & Hex2).
    exists c2, w2. cbn [import_each]. unfold bind at 1. rewrite Hrun1.
    split; [exact Hrun2 |].
    split; [exact (same_inputs_trans _ _ _ Hsame1 Hsame2) |].
    split; [| split; [| split]].
    + exists (new1 ++ new2). rewrite Hrows2, Hrows1, <- app_assoc.
      split; [reflexivity |]. rewrite length_app. split; [lia |].
      intros Hdb. specialize (Hout1 Hdb).
      specialize (Hout2 (proj1 (same_inputs_db _ _ Hsame1) Hdb)).
      cbn [List.length]. lia.
    + rewrite Hop2, Hop1, <- app_assoc. reflexivity.
    + exists (evs1 ++ evs2). rewrite Hevs2, Hevs1, <- app_assoc. reflexivity.
    + rewrite Hex2, Hex1, (loaded_files_same w w1 files Hsame1).
      change (loaded_files w (f :: files))
        with (if match loads w f with Some _ => true | None => false end
              then f :: loaded_files w files else loaded_files w files).
      destruct (loads w f); cbn [List.length]; lia.
Qed.

(** ** The whole run *)

Definition add_stdout (w : World) (out : list line) : World :=
  {| w_dir := w_dir w; w_files := w_files w; w_db := w_db w;
     w_clock := w_clock w; w_stdout := w_stdout w ++ out;
     w_trace := w_trace w |}.

Definition add_trace (w : World) (evs : list event) : World :=
  {| w_dir := w_dir w; w_files := w_files w; w_db := w_db w;
     w_clock := w_clock w; w_stdout := w_stdout w;
     w_trace := w_trace w ++ evs |}.

(** The world when the loop starts. *)
Definition started (w : World) (n : nat) : World :=
  add_trace (add_stdout w [PRule; PTitle; PRule; PFound n; PUsingDatabase])
            [EvExists true].

(** The closing report. *)
Definition report (imported_count : Z) : list line :=
  [PRule; PImportComplete imported_count; PRule;
   PNextSteps; PStep 1; PStep 2; PStep 3; PStep 4].

Ltac step_main :=
  repeat progress
    (cbv [bind print ret os_path_exists log negb];
     cbn [w_dir w_files w_db w_clock w_stdout w_trace]).

Lemma main_no_files (w : World) :
  sorted (glob w) = [] ->
  main w = (Ret 1, add_stdout w [PRule; PTitle; PRule; PNoFilesFound]).
Proof.
  intros H. unfold main, glob in *. step_main. rewrite H. step_main.
  unfold add_stdout. rewrite <- !app_assoc. reflexivity.
Qed.

Lemma main_no_database (w : World) (f : text) (files : list text) :
  sorted (glob w) = f :: files -> w_db w = None ->
  main w
  = (Ret 1,
     add_trace
       (add_stdout w [PRule; PTitle; PRule; PFound (S (List.length files));
                      PDatabaseNotFound; PStartN8n])
       [EvExists false]).
Proof.
  intros H Hdb. unfold main, glob in *. step_main. rewrite H. step_main.
  rewrite Hdb. step_main.
  unfold add_trace, add_stdout.
  cbn [w_dir w_files w_db w_clock w_stdout w_trace List.length].
  rewrite ?Hdb, <- !app_assoc. reflexivity.
Qed.

Lemma main_runs (w : World) (db : Database) (f : text) (files : list text)
      (c : Z) (w2 : World) :
  sorted (glob w) = f :: files -> w_db w = Some db ->
  import_each (f :: files) 0 (started w (S (List.length files))) = (Ret c, w2) ->
  main w = (Ret 0, add_stdout w2 (report c)).
Proof.
  intros H Hdb Hrun. unfold main, glob in *. step_main. rewrite H. step_main.
  rewrite Hdb. step_main.
  unfold started, add_trace, add_stdout in Hrun.
  cbn [w_dir w_files w_db w_clock w_stdout w_trace] in Hrun.
  rewrite <- !app_assoc. cbn [app List.length].
  rewrite Hdb in Hrun. cbn [app] in Hrun. rewrite Hrun. step_main.
  unfold add_stdout, report.
  cbn [w_dir w_files w_db w_clock w_stdout w_trace].
  rewrite <- !app_assoc. reflexivity.
Qed.

Lemma started_same_inputs (w : World) (n : nat) : same_inputs w (started w n).
Proof.
  unfold same_inputs, same_database, started. cbn.
  destruct (w_db w); repeat split; auto; tauto.
Qed.

Lemma sorted_nil_inv (l : list text) : sorted l = [] -> l = [].
Proof.
  destruct l as [|x l]; [reflexivity |]. cbn [sorted].
  destruct (sorted l) as [|y l']; cbn [insert_sorted]; [discriminate |].
  destruct (text_leb x y); discriminate.
Qed.

(** Every run that passes the two checks reaches the report. *)
Lemma main_facts (w : World) (f : text) (files : list text) :
  sorted (glob w) = f :: files -> w_db w <> None ->
  forallb (in_model w) (f :: files) = true ->
  exists c w2,
    main w = (Ret 0, add_stdout w2 (report c))
    /\ import_each (f :: files) 0 (started w (S (List.length files)))
       = (Ret c, w2)
    /\ same_inputs w w2
    /\ (exists new, rows_of w2 = rows_of w ++ new
                    /\ c = Z.of_nat (List.length new)
                    /\ (count_file_errors (w_stdout w2) + List.length new
                        = count_file_errors (w_stdout w)
                          + List.length (f :: files))%nat)
    /\ opened (w_trace w2) = opened (w_trace w) ++ f :: files
    /\ (exists evs, w_trace w2 = w_trace w ++ EvExists true :: evs)
    /\ count_exists (w_trace w2)
       = (count_exists (w_trace w) + 1
          + List.length (loaded_files w (f :: files)))%nat.
Proof.
  intros Hfiles Hdb Hmodel.
  destruct (w_db w) as [db|] eqn:Hdb'; [| contradiction].
  pose proof (started_same_inputs w (S (List.length files))) as Hsame0.
  rewrite <- (forallb_in_model_same _ _ _ Hsame0) in Hmodel.
  destruct (import_each_facts (f :: files) 0 _ Hmodel)
    as (c & w2 & Hrun & Hsame & (new & Hrows & Hc & Hout) & Hop & Hext & Hex).
  exists c, w2.
  split; [exact (main_runs w db f files c w2 Hfiles Hdb' Hrun) |].
  split; [exact Hrun |].
  split; [exact (same_inputs_trans _ _ _ Hsame0 Hsame) |].
  split; [| split; [| split]].
  - exists new. split; [exact Hrows |]. split; [lia |].
    rewrite Hout by (cbn; rewrite Hdb'; discriminate).
    unfold started, add_trace, add_stdout. cbn [w_stdout].
    rewrite count_file_errors_app. cbn. lia.
  - rewrite Hop. unfold started, add_trace. cbn [w_trace].
    rewrite opened_app. cbn. rewrite List.app_nil_r. reflexivity.
  - destruct Hext as (evs & Hevs). exists evs. rewrite Hevs.
    unfold started, add_trace. cbn [w_trace]. rewrite <- app_assoc.
    reflexivity.
  - rewrite Hex, (loaded_files_same _ _ _ Hsame0).
    unfold started, add_trace, add_stdout. cbn [w_trace].
    rewrite count_exists_app.
    change (count_exists [EvExists true]) with 1%nat. lia.
Qed.

(* ================================================================== *)
(** ** A database that works *)

(** The database file exists, opens, has the table, takes every row and
    commits. *)
Definition healthy (w : World) : Prop :=
  exists db rows,
    w_db w = Some db /\ db_opens db = true /\ db_commits db = true
    /\ db_table db = Some rows
    /\ forall rows' row, db_admits db rows' row = true.

(** A value the script can insert: a dict whose name [sqlite3] binds. *)
Definition importable (v : pyval) : bool :=
  match v with
  | VDict d =>
      match bind_param (workflow_name d) with
      | inr _ => true
      | inl _ => false
      end
  | _ => false
  end.

(** A file that holds a well-formed workflow record. *)
Definition well_formed (w : World) (f : text) : bool :=
  match loads w f with
  | Some v => importable v
  | None => false
  end.

Lemma healthy_same (w w' : World) :
  healthy w -> same_inputs w w' -> healthy w'.
Proof.
  intros (db & rows & Hdb & Hopen & Hcom & Htab & Hadm) (_ & _ & Hsame).
  unfold same_database in Hsame. rewrite Hdb in Hsame.
  destruct (w_db w') as [db'|] eqn:Hdb'; [| contradiction].
  destruct Hsame as (H1 & _ & H2 & H3 & H4).
  destruct (db_table db') as [rows'|] eqn:Htab'.
  - exists db', rows'. split; [exact Hdb' |]. split; [congruence |].
    split; [congruence |]. split; [exact Htab' |].
    intros r0 row0. rewrite H2. apply Hadm.
  - exfalso. assert (db_table db = None) by tauto. congruence.
Qed.

Lemma healthy_db (w : World) : healthy w -> w_db w <> None.
Proof. intros (db & rows & Hdb & _). congruence. Qed.

Lemma import_healthy (v : pyval) (w : World) :
  healthy w ->
  exists w', import_workflow_to_db N8N_DB v w = (Ret (importable v), w').
Proof.
  intros (db & rows & Hdb & Hopen & Hcom & Htab & Hadm).
  destruct (importable v) eqn:Himp.
  - destruct v as [| | | | | d]; try discriminate. cbn [importable] in Himp.
    destruct (bind_param (workflow_name d)) as [e | nm] eqn:Hbind;
      [discriminate |].
    eexists. apply (import_success w db rows d nm); auto.
  - destruct (import_facts v w) as (b & w' & Hrun & _).
    destruct b; [| eauto]. exfalso.
    apply import_true_inv in Hrun
      as (d & db' & rows' & nm & -> & _ & _ & _ & _ & Hbind & _).
    cbn [importable] in Himp. rewrite Hbind in Himp. discriminate.
Qed.

Lemma loop_body_healthy (f : text) (c : Z) (w : World) :
  healthy w -> in_model w f = true ->
  exists w',
    loop_body f c w = (Ret (if well_formed w f then c + 1 else c), w').
Proof.
  intros Hh Hmodel. unfold well_formed.
  destruct (load_outcome w f) as [v | e |] eqn:Hload.
  - pose proof (proj1 (load_outcome_loads w f v) Hload) as Hloads.
    rewrite Hloads.
    assert (Hh' : healthy (opened_world f w)).
    { destruct Hh as (db & rows & H). exists db, rows. exact H. }
    destruct (import_healthy v _ Hh') as (w' & Hrun).
    exists w'. exact (loop_body_loaded f c w v _ w' Hloads Hrun).
  - rewrite (load_outcome_raise w f e Hload).
    eexists. exact (loop_body_failed f c w e Hload).
  - exfalso. exact (load_outcome_unmodelled w f Hmodel Hload).
Qed.

Lemma well_formed_same (w w' : World) (files : list text) :
  same_inputs w w' ->
  filter (well_formed w') files = filter (well_formed w) files.
Proof.
  intros H. apply filter_ext. intros f. unfold well_formed.
  rewrite (same_inputs_loads w w' f H). reflexivity.
Qed.

Lemma import_each_healthy (files : list text) :
  forall (c : Z) (w : World),
    healthy w -> forallb (in_model w) files = true ->
    exists w',
      import_each files c w
      = (Ret (c + Z.of_nat (List.length (filter (well_formed w) files))), w').
Proof.
  induction files as [|f files IH]; intros c w Hh Hmodel.
  - exists w. cbn. unfold ret. rewrite Z.add_0_r. reflexivity.
  - cbn [forallb] in Hmodel. apply andb_true_iff in Hmodel as [Hf Hfiles].
    destruct (loop_body_healthy f c w Hh Hf) as (w1 & Hrun1).
    destruct (loop_body_facts f c w Hf) as (c1 & w1' & Hrun1' & Hsame & _).
    rewrite Hrun1 in Hrun1'. injection Hrun1' as <- <-.
    rewrite <- (forallb_in_model_same w w1 files Hsame) in Hfiles.
    destruct (IH (if well_formed w f then c + 1 else c) w1
                 (healthy_same _ _ Hh Hsame) Hfiles) as (w2 & Hrun2).
    exists w2. cbn [import_each]. unfold bind at 1. rewrite Hrun1, Hrun2.
    rewrite (well_formed_same w w1 files Hsame). cbn [filter].
    destruct (well_formed w f); cbn [List.length]; do 2 f_equal; lia.
Qed.

(* ================================================================== *)
(** ** sorted *)

Definition text_le (a b : text) : Prop := text_leb a b = true.

Lemma text_leb_refl (a : text) : text_leb a a = true.
Proof.
  induction a as [|x a IH]; [reflexivity |]. cbn [text_leb].
  rewrite Z.ltb_irrefl, Z.eqb_refl, IH. reflexivity.
Qed.

Lemma text_leb_total (a b : text) :
  text_leb a b = true \/ text_leb b a = true.
Proof.
  revert b; induction a as [|x a IH]; intros [|y b]; cbn [text_leb]; auto.
  destruct (Z.ltb_spec x y); [auto |].
  destruct (Z.ltb_spec y x); [auto |].
  assert (x = y) as -> by lia. rewrite Z.eqb_refl. cbn. apply IH.
Qed.

Lemma text_leb_trans (a b c : text) :
  text_leb a b = true -> text_leb b c = true -> text_leb a c = true.
Proof.
  revert b c; induction a as [|x a IH]; intros [|y b] [|z c];
    cbn [text_leb]; auto; try discriminate.
  rewrite !orb_true_iff, !andb_true_iff, !Z.ltb_lt, !Z.eqb_eq.
  intros [Hxy | [-> Hab]] [Hyz | [-> Hbc]]; try (left; lia).
  right. split; [reflexivity |]. eapply IH; eassumption.
Qed.

Lemma insert_sorted_perm (x : text) (l : list text) :
  Permutation (insert_sorted x l) (x :: l).
Proof.
  induction l as [|y l IH]; cbn [insert_sorted]; [apply Permutation_refl |].
  destruct (text_leb x y); [apply Permutation_refl |].
  apply perm_trans with (y :: x :: l); [| apply perm_swap].
  apply perm_skip, IH.
Qed.

Lemma sorted_perm (l : list text) : Permutation (sorted l) l.
Proof.
  induction l as [|x l IH]; cbn [sorted]; [apply perm_nil |].
  apply perm_trans with (x :: sorted l);
    [apply insert_sorted_perm | apply perm_skip, IH].
Qed.

Lemma insert_sorted_sorted (x : text) (l : list text) :
  StronglySorted text_le l -> StronglySorted text_le (insert_sorted x l).
Proof.
  induction 1 as [|y l Hl IH Hy]; cbn [insert_sorted].
  - repeat constructor.
  - destruct (text_leb x y) eqn:Hxy.
    + constructor; [constructor; assumption |].
      constructor; [exact Hxy |].
      eapply Forall_impl; [| exact Hy].
      intros z Hz. exact (text_leb_trans _ _ _ Hxy Hz).
    + constructor; [exact IH |].
      apply (Permutation_Forall (Permutation_sym (insert_sorted_perm x l))).
      constructor; [| exact Hy].
      destruct (text_leb_total x y) as [H | H]; [congruence | exact H].
Qed.

Lemma sorted_sorted (l : list text) : StronglySorted text_le (sorted l).
Proof.
  induction l as [|x l IH]; cbn [sorted]; [constructor |].
  apply insert_sorted_sorted, IH.
Qed.

(* ================================================================== *)
(** * Sample worlds *)

(** A database that works, with the given rows; it numbers a new row
    after the rows of the table. *)
Definition working_db (rows : list Row) : Database :=
  {| db_opens := true; db_table := Some rows;
     db_rowid := fun rows' => 1 + Z.of_nat (List.length rows');
     db_admits := fun _ _ => true; db_commits := true |}.

(** The workflow of the example of the specification. *)
Definition test_workflow : pyval :=
  VDict [(str "name", VStr (str "Test")); (str "nodes", VList []);
         (str "connections", VDict []); (str "active", VBool true)].

(** A workflow with no field at all. *)
Definition empty_workflow : pyval := VDict [].

(** Three matching files: an array, the test workflow, broken JSON; one
    more matching entry that cannot be opened, and one that does not
    match. *)
Definition sample_files (n : text) : option text :=
  if text_eqb n (str "a-workflow.json") then Some (str "[1, 2]")
  else if text_eqb n (str "b-workflow.json") then Some (json_dumps test_workflow)
  else if text_eqb n (str "c-workflow.json") then Some (str "{oops")
  else None.

Definition sample_world : World :=
  {| w_dir := [str "c-workflow.json"; str "readme.md"; str "b-workflow.json";
               str "a-workflow.json"; str "d-workflow.json"];
     w_files := sample_files;
     w_db := Some (working_db []);
     w_clock := 0; w_stdout := []; w_trace := [] |}.

(** One matching file, the test workflow. *)
Definition single_world : World :=
  {| w_dir := [str "b-workflow.json"];
     w_files := sample_files;
     w_db := Some (working_db []);
     w_clock := 0; w_stdout := []; w_trace := [] |}.

Lemma working_db_healthy (w : World) (rows : list Row) :
  w_db w = Some (working_db rows) -> healthy w.
Proof.
  intros H. exists (working_db rows), rows. repeat split; auto.
Qed.

(* ================================================================== *)
(** ** Lemmas shared by the claims *)

(** A run over N >= 1 files against a database that works. *)
Lemma main_healthy_counts (w : World) (f : text) (files : list text) :
  sorted (glob w) = f :: files ->
  healthy w ->
  forallb (in_model w) (f :: files) = true ->
  let N := List.length (f :: files) in
  let K := List.length (filter (well_formed w) (f :: files)) in
  exists w' new out,
    main w = (Ret 0, w')
    /\ exit_status (fst (main w)) = Some 0
    /\ rows_of w' = rows_of w ++ new /\ List.length new = K
    /\ count_file_errors (w_stdout w')
       = (count_file_errors (w_stdout w) + (N - K))%nat
    /\ w_stdout w' = out ++ report (Z.of_nat K)
    /\ same_inputs w w'.
Proof.
  intros Hfiles Hh Hmodel N K. subst N K.
  destruct (main_facts w f files Hfiles (healthy_db w Hh) Hmodel)
    as (c & w2 & Hmain & Hloop & Hsame & (new & Hrows & Hc & Hout) & _).
  pose proof (started_same_inputs w (S (List.length files))) as Hsame0.
  assert (Hmodel' : forallb (in_model (started w (S (List.length files))))
                            (f :: files) = true).
  { rewrite (forallb_in_model_same _ _ _ Hsame0). exact Hmodel. }
  destruct (import_each_healthy (f :: files) 0 _
              (healthy_same _ _ Hh Hsame0) Hmodel') as (w2' & Hloop').
  rewrite (well_formed_same _ _ (f :: files) Hsame0) in Hloop'.
  assert (Hc' : c = 0 + Z.of_nat (List.length
                                    (filter (well_formed w) (f :: files))))
    by congruence.
  assert (HK : List.length new
               = List.length (filter (well_formed w) (f :: files))) by lia.
  exists (add_stdout w2 (report c)), new, (w_stdout w2).
  split; [exact Hmain |]. rewrite Hmain.
  split; [reflexivity |]. split; [exact Hrows |]. split; [exact HK |].
  split; [| split].
  - unfold add_stdout. cbn [w_stdout]. rewrite count_file_errors_app.
    change (count_file_errors (report c)) with 0%nat.
    pose proof (filter_length_le (well_formed w) (f :: files)). lia.
  - unfold add_stdout. cbn [w_stdout]. rewrite Hc, HK. reflexivity.
  - unfold same_inputs, same_database, add_stdout in *. cbn. exact Hsame.
Qed.

Lemma dict_get_lookup (d : dict) (k : text) (default v : pyval) :
  dict_lookup k d = Some v -> dict_get d k default = v.
Proof. unfold dict_get. intros ->. reflexivity. Qed.

Lemma dict_get_absent (d : dict) (k : text) (default : pyval) :
  dict_lookup k d = None -> dict_get d k default = default.
Proof. unfold dict_get. intros ->. reflexivity. Qed.

Lemma wf_val_lookup (d : dict) (k : text) (v : pyval) :
  wf_val (VDict d) = true -> dict_lookup k d = Some v -> wf_val v = true.
Proof.
  cbn [wf_val]. rewrite andb_true_iff. intros [Hd _].
  induction d as [|[k' v'] d IH]; cbn [dict_lookup]; [discriminate |].
  cbn [forallb fst snd] in Hd. apply andb_true_iff in Hd as [Hkv Hd].
  apply andb_true_iff in Hkv as [_ Hv'].
  destruct (text_eqb k k'); [intros H; injection H as <-; exact Hv' |].
  exact (IH Hd).
Qed.

Lemma bind_param_str (s : text) (nm : sqlval) :
  bind_param (VStr s) = inr nm -> nm = SqlText s.
Proof.
  cbn [bind_param]. destruct (forallb _ s); [| discriminate].
  intros H; injection H as <-. reflexivity.
Qed.

Lemma rows_of_imported (w : World) (db : Database) (rows : list Row)
      (d : dict) (nm : sqlval) :
  rows_of (imported_world w db rows d nm)
  = rows ++ [workflow_row db rows d nm (w_clock w)].
Proof. reflexivity. Qed.

Lemma rows_of_table (w : World) (db : Database) (rows : list Row) :
  w_db w = Some db -> db_table db = Some rows -> rows_of w = rows.
Proof. unfold rows_of. intros -> ->. reflexivity. Qed.

(** A value that is no dict: the error is printed, nothing is stored. *)
Lemma import_not_dict_facts (w : World) (db : Database) (v : pyval) :
  w_db w = Some db -> (forall d, v <> VDict d) ->
  exists w' e,
    import_workflow_to_db N8N_DB v w = (Ret false, w')
    /\ rows_of w' = rows_of w
    /\ w_stdout w' = w_stdout w ++ [PErrorImporting e]
    /\ (db_opens db = true -> e = EAttributeError).
Proof.
  intros Hdb Hv.
  assert (Hrows : forall tr clk out,
             rows_of {| w_dir := w_dir w; w_files := w_files w;
                        w_db := Some db; w_clock := clk; w_stdout := out;
                        w_trace := tr |} = rows_of w).
  { intros. unfold rows_of. cbn [w_db]. rewrite Hdb. reflexivity. }
  run_monad.
  cbn [w_dir w_files w_db w_clock w_stdout w_trace]. rewrite ?Hdb.
  cbn [negb w_dir w_files w_db w_clock w_stdout w_trace]. rewrite ?Hdb.
  destruct (db_opens db) eqn:Hopen.
  - destruct v as [| bv | z | s | l | d];
      try (eexists _, EAttributeError;
           split; [reflexivity |];
           cbn [w_dir w_files w_db w_clock w_stdout w_trace];
           split; [apply Hrows |]; split; [reflexivity | auto]).
    exfalso. exact (Hv d eq_refl).
  - eexists _, EOperationalError.
    split; [reflexivity |].
    cbn [w_dir w_files w_db w_clock w_stdout w_trace].
    split; [apply Hrows |]. split; [reflexivity | discriminate].
Qed.

Lemma well_formed_in_model (w : World) (f : text) :
  well_formed w f = true -> in_model w f = true.
Proof.
  unfold well_formed, loads, in_model.
  destruct (w_files w f) as [units|]; [| discriminate].
  destruct (forallb is_scalar units); [| discriminate].
  destruct (json_loads units); try discriminate. reflexivity.
Qed.

(* ================================================================== *)
(** ** The turns of the loop *)

(** What one turn of the loop leaves behind: the file it opened, the
    events on the database that followed, the rows it appended. *)
Record turn : Type := {
  t_file : text;
  t_events : list event;
  t_rows : list Row
}.

(** The events of a turn: the file is opened, then its import runs. *)
Definition turn_events (t : turn) : list event :=
  EvOpen (t_file t) :: t_events t.

(** The row is the one the INSERT binds for file [g]: the file loads to
    a dict whose name binds, and the row holds its fields. *)
Definition inserted_from (w : World) (g : text) (r : Row) : Prop :=
  exists d nm db rows now,
    loads w g = Some (VDict d)
    /\ bind_param (workflow_name d) = inr nm
    /\ r = workflow_row db rows d nm now.

(** A turn opens no other file; it appends no row, or one row, the row
    of its own file, through an execute and a commit; against a database
    that works, a well-formed file does get its row. *)
Definition turn_ok (w : World) (t : turn) : Prop :=
  opened (t_events t) = []
  /\ (t_rows t = []
      \/ exists r,
           t_rows t = [r] /\ inserted_from w (t_file t) r
           /\ t_events t = [EvExists true; EvConnect; EvExecute; EvCommit])
  /\ (healthy w -> well_formed w (t_file t) = true -> t_rows t <> []).

(** One call of [import_workflow_to_db], as a turn. *)
Lemma import_turn (v : pyval) (w : World) :
  exists b w' evs new,
    import_workflow_to_db N8N_DB v w = (Ret b, w')
    /\ same_inputs w w'
    /\ w_trace w' = w_trace w ++ evs
    /\ rows_of w' = rows_of w ++ new
    /\ opened evs = []
    /\ (new = []
        \/ exists d nm db rows now,
             v = VDict d /\ bind_param (workflow_name d) = inr nm
             /\ new = [workflow_row db rows d nm now]
             /\ evs = [EvExists true; EvConnect; EvExecute; EvCommit])
    /\ (healthy w -> importable v = true -> new <> []).
Proof.
  destruct (import_facts v w)
    as (b & w' & Hrun & Hsame & (new & Hrows & Hlen) & Hop & _
        & (evs & Hevs) & _).
  exists b, w', evs, new.
  split; [exact Hrun |]. split; [exact Hsame |]. split; [exact Hevs |].
  split; [exact Hrows |]. split; [| split].
  - rewrite Hevs, opened_app in Hop.
    apply (app_inv_head (opened (w_trace w))).
    rewrite List.app_nil_r. exact Hop.
  - destruct b.
    + right.
      destruct (import_true_inv v w w' Hrun)
        as (d & db & rows & nm & Hv & Hdb & _ & Htab & _ & Hbind & _ & Hw').
      rewrite Hw', rows_of_imported, (rows_of_table w db rows Hdb Htab)
        in Hrows.
      apply app_inv_head in Hrows.
      rewrite Hw' in Hevs. cbn [imported_world w_trace] in Hevs.
      apply app_inv_head in Hevs.
      exists d, nm, db, rows, (w_clock w). auto.
    + left. destruct new; [reflexivity | discriminate].
  - intros Hh Himp. destruct (import_healthy v w Hh) as (w'' & Hrun').
    rewrite Hrun in Hrun'. injection Hrun' as Hb _.
    rewrite Himp in Hb. subst b. destruct new; discriminate.
Qed.

Lemma inserted_from_same (w w' : World) (g : text) (r : Row) :
  same_inputs w w' -> inserted_from w' g r -> inserted_from w g r.
Proof.
  intros Hsame (d & nm & db & rows & now & Hl & Hb & Hr).
  exists d, nm, db, rows, now.
  rewrite <- (same_inputs_loads w w' g Hsame). auto.
Qed.

Lemma turn_ok_same (w w' : World) (t : turn) :
  same_inputs w w' -> turn_ok w' t -> turn_ok w t.
Proof.
  intros Hsame (Hop & Hrows & Hh). split; [exact Hop |]. split.
  - destruct Hrows as [Hnil | (r & Hr & Hins & Hev)]; [left; exact Hnil |].
    right. exists r. split; [exact Hr |]. split; [| exact Hev].
    exact (inserted_from_same w w' _ r Hsame Hins).
  - intros Hw Hwf. apply Hh; [exact (healthy_same w w' Hw Hsame) |].
    unfold well_formed in *.
    rewrite (same_inputs_loads w w' _ Hsame). exact Hwf.
Qed.

(** One turn of the loop. *)
Lemma loop_body_turn (f : text) (c : Z) (w : World) :
  in_model w f = true ->
  exists c' w' t,
    loop_body f c w = (Ret c', w')
    /\ same_inputs w w'
    /\ t_file t = f /\ turn_ok w t
    /\ w_trace w' = w_trace w ++ turn_events t
    /\ rows_of w' = rows_of w ++ t_rows t.
Proof.
  intros Hmodel.
  destruct (load_outcome w f) as [v | e |] eqn:Hload.
  - pose proof (proj1 (load_outcome_loads w f v) Hload) as Hloads.
    destruct (import_turn v (opened_world f w))
      as (b & w' & evs & new & Hrun & Hsame & Hevs & Hrows & Hop & Hnew & Hh).
    exists (if b then c + 1 else c), w',
      {| t_file := f; t_events := evs; t_rows := new |}.
    split; [exact (loop_body_loaded f c w v b w' Hloads Hrun) |].
    split; [exact Hsame |]. split; [reflexivity |].
    split; [| split].
    + unfold turn_ok. cbn [t_file t_events t_rows].
      split; [exact Hop |]. split.
      * destruct Hnew as [Hnil | (d & nm & db & rows & now & Hv & Hbind
                                  & Hr & He)]; [left; exact Hnil |].
        right. eexists. split; [exact Hr |]. split; [| exact He].
        exists d, nm, db, rows, now. rewrite Hloads, Hv. auto.
      * intros Hw Hwf. apply Hh.
        -- destruct Hw as (db & rows & H). exists db, rows. exact H.
        -- unfold well_formed in Hwf. rewrite Hloads in Hwf. exact Hwf.
    + rewrite Hevs. unfold turn_events.
      cbn [opened_world w_trace t_file t_events].
      rewrite <- app_assoc. reflexivity.
    + exact Hrows.
  - eexists c, _, {| t_file := f; t_events := []; t_rows := [] |}.
    split; [exact (loop_body_failed f c w e Hload) |].
    split; [| split; [reflexivity | split; [| split]]].
    + unfold same_inputs, same_database. cbn.
      destruct (w_db w); repeat split; auto; tauto.
    + unfold turn_ok. cbn [t_file t_events t_rows].
      split; [reflexivity |]. split; [left; reflexivity |].
      intros _ Hwf. unfold well_formed in Hwf.
      rewrite (load_outcome_raise w f e Hload) in Hwf. discriminate.
    + reflexivity.
    + unfold rows_of. cbn [w_db t_rows]. rewrite List.app_nil_r. reflexivity.
  - exfalso. exact (load_outcome_unmodelled w f Hmodel Hload).
Qed.

(** The loop, turn by turn. *)
Lemma import_each_turns (files : list text) :
  forall (c : Z) (w : World),
    forallb (in_model w) files = true ->
    exists c' w' turns,
      import_each files c w = (Ret c', w')
      /\ same_inputs w w'
      /\ map t_file turns = files
      /\ Forall (turn_ok w) turns
      /\ w_trace w' = w_trace w ++ flat_map turn_events turns
      /\ rows_of w' = rows_of w ++ flat_map t_rows turns.
Proof.
  induction files as [|f files IH]; intros c w Hmodel.
  - exists c, w, []. cbn [import_each map flat_map]. unfold ret.
    rewrite !List.app_nil_r.
    split; [reflexivity |]. split; [apply same_inputs_refl |].
    repeat split. constructor.
  - cbn [forallb] in Hmodel. apply andb_true_iff in Hmodel as [Hf Hfiles].
    destruct (loop_body_turn f c w Hf)
      as (c1 & w1 & t & Hrun1 & Hsame1 & Hfile & Hok & Htr1 & Hrows1).
    rewrite <- (forallb_in_model_same w w1 files Hsame1) in Hfiles.
    destruct (IH c1 w1 Hfiles)
      as (c2 & w2 & turns & Hrun2 & Hsame2 & Hmap & Hall & Htr2 & Hrows2).
    exists c2, w2, (t :: turns).
    cbn [import_each map flat_map]. unfold bind at 1. rewrite Hrun1.
    split; [exact Hrun2 |].
    split; [exact (same_inputs_trans _ _ _ Hsame1 Hsame2) |].
    split; [rewrite Hfile, Hmap; reflexivity |].
    split; [| split].
    + constructor; [exact Hok |].
      eapply Forall_impl; [| exact Hall].
      intros t' Ht'. exact (turn_ok_same w w1 t' Hsame1 Ht').
    + rewrite Htr2, Htr1, <- app_assoc. reflexivity.
    + rewrite Hrows2, Hrows1, <- app_assoc. reflexivity.
Qed.

(** A run that passes the two checks, turn by turn. *)
Lemma main_turns (w : World) (f : text) (files : list text) :
  sorted (glob w) = f :: files -> w_db w <> None ->
  forallb (in_model w) (f :: files) = true ->
  exists w' turns,
    main w = (Ret 0, w')
    /\ map t_file turns = f :: files
    /\ Forall (turn_ok w) turns
    /\ w_trace w' = w_trace w ++ EvExists true :: flat_map turn_events turns
    /\ rows_of w' = rows_of w ++ flat_map t_rows turns
    /\ opened (w_trace w') = opened (w_trace w) ++ f :: files.
Proof.
  intros Hfiles Hdb Hmodel.
  destruct (main_facts w f files Hfiles Hdb Hmodel)
    as (c & w2 & Hmain & Hloop & _ & _ & Hop & _).
  pose proof (started_same_inputs w (S (List.length files))) as Hsame0.
  rewrite <- (forallb_in_model_same _ _ _ Hsame0) in Hmodel.
  destruct (import_each_turns (f :: files) 0 _ Hmodel)
    as (c' & w2' & turns & Hloop' & _ & Hmap & Hall & Htr & Hrows).
  rewrite Hloop in Hloop'. injection Hloop' as <- <-.
  exists (add_stdout w2 (report c)), turns.
  split; [exact Hmain |]. split; [exact Hmap |].
  split; [| split; [| split]].
  - eapply Forall_impl; [| exact Hall].
    intros t Ht. exact (turn_ok_same w _ t Hsame0 Ht).
  - unfold add_stdout. cbn [w_trace]. rewrite Htr.
    unfold started, add_trace. cbn [w_trace].
    rewrite <- app_assoc. reflexivity.
  - exact Hrows.
  - exact Hop.
Qed.

(** Against a database that works, the rows of the turns are the rows
    of the well-formed files, in the order of the turns. *)
Lemma turns_rows (w : World) (turns : list turn) :
  healthy w -> Forall (turn_ok w) turns ->
  Forall2 (inserted_from w) (filter (well_formed w) (map t_file turns))
          (flat_map t_rows turns).
Proof.
  intros Hw Hall.
  induction Hall as [|t turns (_ & Hrows & Hh) _ IH];
    cbn [map filter flat_map]; [constructor |].
  destruct (well_formed w (t_file t)) eqn:Hwf.
  - destruct Hrows as [Hnil | (r & Hr & Hins & _)];
      [exfalso; exact (Hh Hw eq_refl Hnil) |].
    rewrite Hr. cbn [app]. constructor; [exact Hins | exact IH].
  - destruct Hrows as [Hnil | (r & _ & Hins & _)];
      [rewrite Hnil; exact IH |].
    exfalso. destruct Hins as (d & nm & db & rows & now & Hl & Hb & _).
    unfold well_formed in Hwf. rewrite Hl in Hwf.
    cbn [importable] in Hwf. rewrite Hb in Hwf. discriminate.
Qed.

(* ================================================================== *)
(** * The claims *)

(** C1. A run over N >= 1 discovered files, against a database that
    works, of which K hold a well-formed workflow record (the file loads
    to a dict whose name binds) and the other N-K do not: the run ends
    with status 0, appends exactly K rows to the workflow table, prints
    exactly N-K per-file error messages, and closes with the report of
    K imported workflows. *)
Theorem C1_batch_counts (w : World) (f : text) (files : list text) :
  sorted (glob w) = f :: files ->
  healthy w ->
  forallb (in_model w) (f :: files) = true ->
  let N := List.length (f :: files) in
  let K := List.length (filter (well_formed w) (f :: files)) in
  exists w' new out,
    main w = (Ret 0, w')
    /\ exit_status (fst (main w)) = Some 0
    /\ rows_of w' = rows_of w ++ new /\ List.length new = K
    /\ count_file_errors (w_stdout w')
       = (count_file_errors (w_stdout w) + (N - K))%nat
    /\ w_stdout w' = out ++ report (Z.of_nat K).
Proof.
  intros Hfiles Hh Hmodel N K.
  destruct (main_healthy_counts w f files Hfiles Hh Hmodel)
    as (w' & new & out & H1 & H2 & H3 & H4 & H5 & H6 & _).
  exists w', new, out. repeat split; assumption.
Qed.

Lemma C1_batch_counts_witness :
  exists w' new out,
    main sample_world = (Ret 0, w')
    /\ exit_status (fst (main sample_world)) = Some 0
    /\ rows_of w' = rows_of sample_world ++ new /\ List.length new = 1%nat
    /\ count_file_errors (w_stdout w')
       = (count_file_errors (w_stdout sample_world) + (4 - 1))%nat
    /\ w_stdout w' = out ++ report 1.
Proof.
  apply (C1_batch_counts sample_world (str "a-workflow.json")
           [str "b-workflow.json"; str "c-workflow.json";
            str "d-workflow.json"]).
  - vm_compute. reflexivity.
  - apply (working_db_healthy sample_world []). reflexivity.
  - vm_compute. reflexivity.
Defined.

(** C2. The run ends with status 1 exactly when no matching file is
    found or the database file is absent at startup, and with status 0
    otherwise. In both fatal cases the table is left as it was; when no
    file is found the database file is not even looked at. *)
Theorem C2_exit_status (w : World) :
  forallb (in_model w) (sorted (glob w)) = true ->
  exists s w',
    main w = (Ret s, w')
    /\ exit_status (fst (main w)) = Some s
    /\ (s = 1 <-> (glob w = [] \/ w_db w = None))
    /\ (s <> 1 -> s = 0)
    /\ (glob w = [] \/ w_db w = None ->
        w_db w' = w_db w /\ rows_of w' = rows_of w)
    /\ (glob w = [] -> w_trace w' = w_trace w).
Proof.
  intros Hmodel.
  destruct (sorted (glob w)) as [|f files] eqn:Hfiles.
  - pose proof (sorted_nil_inv _ Hfiles) as Hglob.
    eexists 1, _. rewrite (main_no_files w Hfiles).
    repeat split; auto; try lia.
  - assert (Hglob : glob w <> []).
    { intros H. rewrite H in Hfiles. discriminate. }
    destruct (w_db w) as [db|] eqn:Hdb.
    + destruct (main_facts w f files Hfiles) as (c & w2 & Hmain & _);
        [congruence | exact Hmodel |].
      eexists 0, _. rewrite Hmain.
      repeat split; auto; try lia; try discriminate;
        try (intros [H | H]; [contradiction | discriminate]);
        try (intros H; contradiction);
        try (match goal with
             | H : _ \/ _ |- _ =>
                 destruct H as [H | H]; [contradiction | discriminate]
             end).
    + eexists 1, _. rewrite (main_no_database w f files Hfiles Hdb).
      repeat split; auto; try lia;
        try (unfold rows_of; cbn; rewrite Hdb; reflexivity);
        try (intros H; contradiction).
Qed.

Lemma C2_exit_status_witness :
  exists s w',
    main sample_world = (Ret s, w')
    /\ exit_status (fst (main sample_world)) = Some s
    /\ (s = 1 <-> (glob sample_world = [] \/ w_db sample_world = None))
    /\ (s <> 1 -> s = 0)
    /\ (glob sample_world = [] \/ w_db sample_world = None ->
        w_db w' = w_db sample_world /\ rows_of w' = rows_of sample_world)
    /\ (glob sample_world = [] -> w_trace w' = w_trace sample_world).
Proof.
  apply (C2_exit_status sample_world). vm_compute. reflexivity.
Defined.

(** C5. In a run that passes both checks, no failure of a file leaves
    its turn of the loop: the turn returns normally whatever the file and
    the database, every discovered file is opened, in order, and the run
    ends with status 0, also when no row at all was inserted. *)
Theorem C5_failures_stay_per_file (w : World) (f : text) (files : list text) :
  sorted (glob w) = f :: files ->
  w_db w <> None ->
  forallb (in_model w) (f :: files) = true ->
  (forall g c w1, in_model w1 g = true ->
                  exists c' w1', loop_body g c w1 = (Ret c', w1'))
  /\ exists w',
       main w = (Ret 0, w')
       /\ exit_status (fst (main w)) = Some 0
       /\ opened (w_trace w') = opened (w_trace w) ++ f :: files.
Proof.
  intros Hfiles Hdb Hmodel. split.
  - intros g c w1 Hg.
    destruct (loop_body_facts g c w1 Hg) as (c' & w1' & Hrun & _). eauto.
  - destruct (main_facts w f files Hfiles Hdb Hmodel)
      as (c & w2 & Hmain & _ & _ & _ & Hop & _).
    eexists. rewrite Hmain. repeat split. exact Hop.
Qed.

(** A world where every file fails: the table is missing. *)
Definition failing_world : World :=
  {| w_dir := w_dir sample_world; w_files := sample_files;
     w_db := Some {| db_opens := true; db_table := None;
                     db_rowid := fun _ => 1;
                     db_admits := fun _ _ => true; db_commits := true |};
     w_clock := 0; w_stdout := []; w_trace := [] |}.

Lemma C5_failures_stay_per_file_witness :
  (forall g c w1, in_model w1 g = true ->
                  exists c' w1', loop_body g c w1 = (Ret c', w1'))
  /\ exists w',
       main failing_world = (Ret 0, w')
       /\ exit_status (fst (main failing_world)) = Some 0
       /\ opened (w_trace w')
          = opened (w_trace failing_world)
            ++ [str "a-workflow.json"; str "b-workflow.json";
                str "c-workflow.json"; str "d-workflow.json"].
Proof.
  apply (C5_failures_stay_per_file failing_world).
  - vm_compute. reflexivity.
  - discriminate.
  - vm_compute. reflexivity.
Defined.

(** C7. In a run that passes both checks the files are processed one
    after the other in ascending order of their names (code point by
    code point): the loop takes one turn per matching entry of the
    directory, in sorted order; the events of the run are the events of
    the turns in that order, each turn opening its file and then running
    its import; the table grows by the rows of the turns in that order,
    where a turn appends at most the row of its own file, through an
    execute and a commit. Against a database that works the rows
    appended are, in order, the rows of the well-formed files in
    ascending order. *)
Theorem C7_ascending_order (w : World) (f : text) (files : list text) :
  sorted (glob w) = f :: files ->
  w_db w <> None ->
  forallb (in_model w) (f :: files) = true ->
  exists w' turns,
    main w = (Ret 0, w')
    /\ map t_file turns = sorted (glob w)
    /\ Forall (turn_ok w) turns
    /\ w_trace w' = w_trace w ++ EvExists true :: flat_map turn_events turns
    /\ rows_of w' = rows_of w ++ flat_map t_rows turns
    /\ (healthy w ->
        Forall2 (inserted_from w)
                (filter (well_formed w) (sorted (glob w)))
                (flat_map t_rows turns))
    /\ opened (w_trace w') = opened (w_trace w) ++ sorted (glob w)
    /\ StronglySorted text_le (sorted (glob w))
    /\ Permutation (sorted (glob w)) (glob w)
    /\ (forall g, In g (glob w) <->
                  In g (w_dir w) /\ endswith (str "-workflow.json") g = true).
Proof.
  intros Hfiles Hdb Hmodel.
  destruct (main_turns w f files Hfiles Hdb Hmodel)
    as (w' & turns & Hmain & Hmap & Hall & Htr & Hrows & Hop).
  exists w', turns. rewrite Hfiles.
  split; [exact Hmain |]. split; [exact Hmap |]. split; [exact Hall |].
  split; [exact Htr |]. split; [exact Hrows |].
  split; [intros Hw; rewrite <- Hmap; exact (turns_rows w turns Hw Hall) |].
  split; [exact Hop |]. rewrite <- Hfiles.
  split; [apply sorted_sorted |]. split; [apply sorted_perm |].
  intros g. unfold glob. apply filter_In.
Qed.

Lemma C7_ascending_order_witness :
  exists w' turns,
    main sample_world = (Ret 0, w')
    /\ map t_file turns = sorted (glob sample_world)
    /\ Forall (turn_ok sample_world) turns
    /\ w_trace w'
       = w_trace sample_world ++ EvExists true :: flat_map turn_events turns
    /\ rows_of w' = rows_of sample_world ++ flat_map t_rows turns
    /\ (healthy sample_world ->
        Forall2 (inserted_from sample_world)
                (filter (well_formed sample_world)
                        (sorted (glob sample_world)))
                (flat_map t_rows turns))
    /\ opened (w_trace w')
       = opened (w_trace sample_world) ++ sorted (glob sample_world)
    /\ StronglySorted text_le (sorted (glob sample_world))
    /\ Permutation (sorted (glob sample_world)) (glob sample_world)
    /\ (forall g, In g (glob sample_world) <->
                  In g (w_dir sample_world)
                  /\ endswith (str "-workflow.json") g = true).
Proof.
  apply (C7_ascending_order sample_world (str "a-workflow.json")
           [str "b-workflow.json"; str "c-workflow.json";
            str "d-workflow.json"]).
  - vm_compute. reflexivity.
  - discriminate.
  - vm_compute. reflexivity.
Defined.

(** C3. A file whose top-level object has the four fields, with a text
    name and a boolean active, read against a database that takes the
    row: the file loads, the import succeeds, and the new row has the
    name unchanged, nodes and connections texts that [json.loads] maps
    back to the values of the file, and active 1 for true, 0 for
    false. *)
Theorem C3_row_reflects_file
        (w : World) (db : Database) (rows : list Row) (f t r : text)
        (d : dict) (name : text) (nodes connections : pyval) (active : bool) :
  w_files w f = Some t -> forallb is_scalar t = true ->
  json_loads t = POk (VDict d) r ->
  dict_lookup (str "name") d = Some (VStr name) ->
  dict_lookup (str "nodes") d = Some nodes ->
  dict_lookup (str "connections") d = Some connections ->
  dict_lookup (str "active") d = Some (VBool active) ->
  w_db w = Some db -> db_opens db = true -> db_table db = Some rows ->
  db_commits db = true ->
  forallb (fun c => negb (is_surrogate c)) name = true ->
  db_admits db rows (workflow_row db rows d (SqlText name) (w_clock w)) = true ->
  exists w1 w2 row,
    load_workflow f w = (Ret (VDict d), w1)
    /\ import_workflow_to_db N8N_DB (VDict d) w1 = (Ret true, w2)
    /\ rows_of w2 = rows_of w ++ [row]
    /\ row_name row = SqlText name
    /\ json_loads (row_nodes row) = POk nodes []
    /\ json_loads (row_connections row) = POk connections []
    /\ row_active row = (if active then 1 else 0).
Proof.
  intros Hfile Hscalar Hjson Hname Hnodes Hconn Hactive
         Hdb Hopen Htab Hcom Hbind Hadm.
  pose proof (json_loads_wf t _ r Hjson Hscalar) as Hwf.
  assert (Hload : load_outcome w f = Ret (VDict d)).
  { unfold load_outcome. rewrite Hfile, Hscalar, Hjson. reflexivity. }
  assert (Hbind' : bind_param (workflow_name d) = inr (SqlText name)).
  { unfold workflow_name. rewrite (dict_get_lookup _ _ _ _ Hname).
    cbn [bind_param]. rewrite Hbind. reflexivity. }
  exists (opened_world f w),
    (imported_world (opened_world f w) db rows d (SqlText name)),
    (workflow_row db rows d (SqlText name) (w_clock w)).
  split; [rewrite load_workflow_spec, Hload; reflexivity |].
  split; [apply import_success; auto |].
  rewrite rows_of_imported, (rows_of_table w db rows Hdb Htab).
  split; [reflexivity |]. split; [reflexivity |].
  cbn [workflow_row row_nodes row_connections row_active].
  rewrite (dict_get_lookup _ _ _ _ Hnodes), (dict_get_lookup _ _ _ _ Hconn),
    (dict_get_lookup _ _ _ _ Hactive).
  split; [apply json_loads_dumps, (wf_val_lookup d _ _ Hwf Hnodes) |].
  split; [apply json_loads_dumps, (wf_val_lookup d _ _ Hwf Hconn) |].
  reflexivity.
Qed.

Lemma C3_row_reflects_file_witness :
  exists w1 w2 row,
    load_workflow (str "b-workflow.json") single_world
    = (Ret test_workflow, w1)
    /\ import_workflow_to_db N8N_DB test_workflow w1 = (Ret true, w2)
    /\ rows_of w2 = rows_of single_world ++ [row]
    /\ row_name row = SqlText (str "Test")
    /\ json_loads (row_nodes row) = POk (VList []) []
    /\ json_loads (row_connections row) = POk (VDict []) []
    /\ row_active row = (if true then 1 else 0).
Proof.
  apply (C3_row_reflects_file single_world (working_db []) []
           (str "b-workflow.json") (json_dumps test_workflow) []
           [(str "name", VStr (str "Test")); (str "nodes", VList []);
            (str "connections", VDict []); (str "active", VBool true)]
           (str "Test") (VList []) (VDict []) true);
    vm_compute; reflexivity.
Defined.

(** C4. When the import of a dict succeeds, the new row takes, for each
    of the four fields that is absent, its default (the placeholder name,
    the text of an empty list, the text of an empty dict, 0) and, for
    each field that is present, the value of the file. *)
Theorem C4_defaults_for_absent_fields
        (w : World) (db : Database) (rows : list Row) (d : dict)
        (nm : sqlval) :
  w_db w = Some db -> db_opens db = true -> db_table db = Some rows ->
  db_commits db = true ->
  bind_param (workflow_name d) = inr nm ->
  db_admits db rows (workflow_row db rows d nm (w_clock w)) = true ->
  exists w2 row,
    import_workflow_to_db N8N_DB (VDict d) w = (Ret true, w2)
    /\ rows_of w2 = rows_of w ++ [row]
    /\ (dict_lookup (str "name") d = None ->
        row_name row = SqlText (str "Untitled Workflow"))
    /\ (dict_lookup (str "nodes") d = None -> row_nodes row = str "[]")
    /\ (dict_lookup (str "connections") d = None ->
        row_connections row = str "{}")
    /\ (dict_lookup (str "active") d = None -> row_active row = 0)
    /\ (forall v, dict_lookup (str "name") d = Some v ->
                  bind_param v = inr (row_name row))
    /\ (forall v, dict_lookup (str "nodes") d = Some v ->
                  row_nodes row = json_dumps v)
    /\ (forall v, dict_lookup (str "connections") d = Some v ->
                  row_connections row = json_dumps v)
    /\ (forall v, dict_lookup (str "active") d = Some v ->
                  row_active row = if truthy v then 1 else 0).
Proof.
  intros Hdb Hopen Htab Hcom Hbind Hadm.
  exists (imported_world w db rows d nm),
    (workflow_row db rows d nm (w_clock w)).
  split; [apply import_success; auto |].
  rewrite rows_of_imported, (rows_of_table w db rows Hdb Htab).
  split; [reflexivity |].
  cbn [workflow_row row_name row_nodes row_connections row_active].
  unfold workflow_name in Hbind.
  repeat split.
  - intros H. rewrite (dict_get_absent _ _ _ H) in Hbind.
    cbn in Hbind. injection Hbind as <-. reflexivity.
  - intros H. rewrite (dict_get_absent _ _ _ H). reflexivity.
  - intros H. rewrite (dict_get_absent _ _ _ H). reflexivity.
  - intros H. rewrite (dict_get_absent _ _ _ H). reflexivity.
  - intros v H. rewrite (dict_get_lookup _ _ _ _ H) in Hbind. exact Hbind.
  - intros v H. rewrite (dict_get_lookup _ _ _ _ H). reflexivity.
  - intros v H. rewrite (dict_get_lookup _ _ _ _ H). reflexivity.
  - intros v H. rewrite (dict_get_lookup _ _ _ _ H). reflexivity.
Qed.

Lemma C4_defaults_for_absent_fields_witness :
  exists w2 row,
    import_workflow_to_db N8N_DB empty_workflow single_world = (Ret true, w2)
    /\ rows_of w2 = rows_of single_world ++ [row]
    /\ row_name row = SqlText (str "Untitled Workflow")
    /\ row_nodes row = str "[]"
    /\ row_connections row = str "{}"
    /\ row_active row = 0.
Proof.
  destruct (C4_defaults_for_absent_fields single_world (working_db []) []
              [] (SqlText (str "Untitled Workflow")))
    as (w2 & row & H1 & H2 & H3 & H4 & H5 & H6 & _);
    try (vm_compute; reflexivity).
  exists w2, row. repeat split; auto.
Defined.

(** C6, as the specification states it, fails: with one file that
    loads, the existence of the database file is checked twice, the
    second time after the file was opened, inside the insertion call. *)
Lemma C6_counterexample :
  w_trace (snd (main single_world))
  = [EvExists true; EvOpen (str "b-workflow.json");
     EvExists true; EvConnect; EvExecute; EvCommit]
  /\ count_exists (w_trace (snd (main single_world))) <> 1%nat.
Proof. split; [vm_compute; reflexivity | vm_compute; discriminate]. Qed.

(** C6, amended. In a run that passes both checks, [main] checks that
    the database file exists once, before any file is opened; after
    that, every call of [import_workflow_to_db] checks it once more, so
    the run makes one check for [main] and one for each file that
    loads. *)
Theorem C6_existence_checks (w : World) (f : text) (files : list text) :
  sorted (glob w) = f :: files ->
  w_db w <> None ->
  forallb (in_model w) (f :: files) = true ->
  (forall v w1, exists b w1',
      import_workflow_to_db N8N_DB v w1 = (Ret b, w1')
      /\ count_exists (w_trace w1') = S (count_exists (w_trace w1)))
  /\ exists w' evs,
       main w = (Ret 0, w')
       /\ w_trace w' = w_trace w ++ EvExists true :: evs
       /\ count_exists evs = List.length (loaded_files w (f :: files)).
Proof.
  intros Hfiles Hdb Hmodel. split.
  - intros v w1.
    destruct (import_facts v w1) as (b & w1' & Hrun & _ & _ & _ & Hex & _).
    eauto.
  - destruct (main_facts w f files Hfiles Hdb Hmodel)
      as (c & w2 & Hmain & _ & _ & _ & _ & (evs & Hevs) & Hex).
    exists (add_stdout w2 (report c)), evs.
    split; [exact Hmain |]. unfold add_stdout. cbn [w_trace].
    split; [exact Hevs |].
    rewrite Hevs, count_exists_app in Hex.
    change (count_exists (EvExists true :: evs)) with (S (count_exists evs))
      in Hex.
    lia.
Qed.

Lemma C6_existence_checks_witness :
  (forall v w1, exists b w1',
      import_workflow_to_db N8N_DB v w1 = (Ret b, w1')
      /\ count_exists (w_trace w1') = S (count_exists (w_trace w1)))
  /\ exists w' evs,
       main sample_world = (Ret 0, w')
       /\ w_trace w' = w_trace sample_world ++ EvExists true :: evs
       /\ count_exists evs
          = List.length
              (loaded_files sample_world
                 [str "a-workflow.json"; str "b-workflow.json";
                  str "c-workflow.json"; str "d-workflow.json"]).
Proof.
  apply (C6_existence_checks sample_world).
  - vm_compute. reflexivity.
  - discriminate.
  - vm_compute. reflexivity.
Defined.

(** C8. Every successful import appends exactly one row and leaves the
    rows that were there as they were; and a second run over the same N
    well-formed files, against a database that works, appends N more
    rows after those of the first run: nothing is overwritten and
    nothing is recognised as a duplicate. *)
Theorem C8_purely_additive (w : World) (f : text) (files : list text) :
  sorted (glob w) = f :: files ->
  healthy w ->
  forallb (well_formed w) (f :: files) = true ->
  (forall v w0 w0',
      import_workflow_to_db N8N_DB v w0 = (Ret true, w0') ->
      exists row, rows_of w0' = rows_of w0 ++ [row])
  /\ exists w1 w2 new1 new2,
       main w = (Ret 0, w1) /\ main w1 = (Ret 0, w2)
       /\ rows_of w1 = rows_of w ++ new1
       /\ rows_of w2 = rows_of w ++ new1 ++ new2
       /\ List.length new1 = List.length (f :: files)
       /\ List.length new2 = List.length (f :: files).
Proof.
  intros Hfiles Hh Hwf. split.
  - intros v w0 w0' Hrun.
    apply import_true_inv in Hrun
      as (d & db & rows & nm & _ & Hdb & _ & Htab & _ & _ & _ & ->).
    eexists. rewrite rows_of_imported, (rows_of_table w0 db rows Hdb Htab).
    reflexivity.
  - assert (Hall : forall w', same_inputs w w' ->
                     filter (well_formed w') (f :: files) = f :: files).
    { intros w' Hsame. rewrite (well_formed_same w w' _ Hsame).
      apply forallb_filter_id. exact Hwf. }
    assert (Hmodel : forallb (in_model w) (f :: files) = true).
    { apply forallb_forall. intros g Hg. apply well_formed_in_model.
      exact (proj1 (forallb_forall _ _) Hwf g Hg). }
    destruct (main_healthy_counts w f files Hfiles Hh Hmodel)
      as (w1 & new1 & out1 & Hmain1 & _ & Hrows1 & Hlen1 & _ & _ & Hsame1).
    assert (Hfiles1 : sorted (glob w1) = f :: files).
    { unfold glob. destruct Hsame1 as (Hdir & _). rewrite Hdir. exact Hfiles. }
    assert (Hmodel1 : forallb (in_model w1) (f :: files) = true).
    { rewrite (forallb_in_model_same _ _ _ Hsame1). exact Hmodel. }
    destruct (main_healthy_counts w1 f files Hfiles1
                (healthy_same _ _ Hh Hsame1) Hmodel1)
      as (w2 & new2 & out2 & Hmain2 & _ & Hrows2 & Hlen2 & _).
    exists w1, w2, new1, new2.
    rewrite (Hall w (same_inputs_refl w)) in Hlen1.
    rewrite (Hall w1 Hsame1) in Hlen2.
    repeat split; auto. rewrite Hrows2, Hrows1, <- app_assoc. reflexivity.
Qed.

Lemma C8_purely_additive_witness :
  (forall v w0 w0',
      import_workflow_to_db N8N_DB v w0 = (Ret true, w0') ->
      exists row, rows_of w0' = rows_of w0 ++ [row])
  /\ exists w1 w2 new1 new2,
       main single_world = (Ret 0, w1) /\ main w1 = (Ret 0, w2)
       /\ rows_of w1 = rows_of single_world ++ new1
       /\ rows_of w2 = rows_of single_world ++ new1 ++ new2
       /\ List.length new1 = 1%nat
       /\ List.length new2 = 1%nat.
Proof.
  apply (C8_purely_additive single_world (str "b-workflow.json") []).
  - vm_compute. reflexivity.
  - apply (working_db_healthy single_world []). reflexivity.
  - vm_compute. reflexivity.
Defined.

(** C9. A file that holds valid JSON whose top-level value is no object:
    whenever its turn comes, the import fails inside
    [import_workflow_to_db], the error is printed, no row is stored and
    the count stays; the run goes on through all the files and ends with
    status 0. *)
Theorem C9_top_level_not_an_object
        (w : World) (f : text) (files : list text) (g : text) (v : pyval) :
  sorted (glob w) = f :: files ->
  w_db w <> None ->
  forallb (in_model w) (f :: files) = true ->
  In g (f :: files) -> loads w g = Some v -> (forall d, v <> VDict d) ->
  (forall c w1, same_inputs w w1 ->
     exists w1' e,
       loop_body g c w1 = (Ret c, w1')
       /\ rows_of w1' = rows_of w1
       /\ w_stdout w1' = w_stdout w1 ++ [PErrorImporting e])
  /\ exists w',
       main w = (Ret 0, w')
       /\ exit_status (fst (main w)) = Some 0
       /\ opened (w_trace w') = opened (w_trace w) ++ f :: files.
Proof.
  intros Hfiles Hdb Hmodel Hg Hload Hv. split.
  - intros c w1 Hsame.
    assert (Hload1 : loads w1 g = Some v).
    { rewrite (same_inputs_loads _ _ _ Hsame). exact Hload. }
    apply (same_inputs_db _ _ Hsame) in Hdb.
    destruct (w_db w1) as [db|] eqn:Hdb1; [| contradiction].
    destruct (import_not_dict_facts (opened_world g w1) db v Hdb1 Hv)
      as (w1' & e & Hrun & Hrows & Hout & _).
    exists w1', e.
    split; [exact (loop_body_loaded g c w1 v false w1' Hload1 Hrun) |].
    split; [exact Hrows | exact Hout].
  - destruct (main_facts w f files Hfiles Hdb Hmodel)
      as (c & w2 & Hmain & _ & _ & _ & Hop & _).
    eexists. rewrite Hmain. repeat split. exact Hop.
Qed.

Lemma C9_top_level_not_an_object_witness :
  (forall c w1, same_inputs sample_world w1 ->
     exists w1' e,
       loop_body (str "a-workflow.json") c w1 = (Ret c, w1')
       /\ rows_of w1' = rows_of w1
       /\ w_stdout w1' = w_stdout w1 ++ [PErrorImporting e])
  /\ exists w',
       main sample_world = (Ret 0, w')
       /\ exit_status (fst (main sample_world)) = Some 0
       /\ opened (w_trace w')
          = opened (w_trace sample_world)
            ++ [str "a-workflow.json"; str "b-workflow.json";
                str "c-workflow.json"; str "d-workflow.json"].
Proof.
  apply (C9_top_level_not_an_object sample_world (str "a-workflow.json")
           [str "b-workflow.json"; str "c-workflow.json";
            str "d-workflow.json"]
           (str "a-workflow.json") (VList [VInt 1; VInt 2])).
  - vm_compute. reflexivity.
  - discriminate.
  - vm_compute. reflexivity.
  - left. reflexivity.
  - vm_compute. reflexivity.
  - discriminate.
Defined.

(** C10. Whatever value the active field holds, it raises no error: when
    the import of the dict succeeds (the database takes the row), the
    stored active is 1 when the value is truthy and 0 when it is falsy,
    and the falsy values are false, 0, None, the empty string, the empty
    list and the empty dict. *)
Theorem C10_active_truthiness
        (w : World) (db : Database) (rows : list Row) (d : dict)
        (nm : sqlval) (a : pyval) :
  w_db w = Some db -> db_opens db = true -> db_table db = Some rows ->
  db_commits db = true ->
  bind_param (workflow_name d) = inr nm ->
  db_admits db rows (workflow_row db rows d nm (w_clock w)) = true ->
  dict_lookup (str "active") d = Some a ->
  exists w2 row,
    import_workflow_to_db N8N_DB (VDict d) w = (Ret true, w2)
    /\ rows_of w2 = rows_of w ++ [row]
    /\ (truthy a = true -> row_active row = 1)
    /\ (truthy a = false -> row_active row = 0)
    /\ (truthy a = false <->
        a = VBool false \/ a = VInt 0 \/ a = VNone \/ a = VStr []
        \/ a = VList [] \/ a = VDict []).
Proof.
  intros Hdb Hopen Htab Hcom Hbind Hadm Hactive.
  exists (imported_world w db rows d nm),
    (workflow_row db rows d nm (w_clock w)).
  split; [apply import_success; auto |].
  rewrite rows_of_imported, (rows_of_table w db rows Hdb Htab).
  split; [reflexivity |].
  cbn [workflow_row row_active]. rewrite (dict_get_lookup _ _ _ _ Hactive).
  split; [intros ->; reflexivity |]. split; [intros ->; reflexivity |].
  split.
  - destruct a as [| [|] | z | s | l | d0]; cbn [truthy]; intros H;
      try discriminate; auto.
    + apply negb_false_iff, Z.eqb_eq in H. subst. auto.
    + destruct s; [auto 6 | discriminate].
    + destruct l; [auto 6 | discriminate].
    + destruct d0; [auto 6 | discriminate].
  - intros [-> | [-> | [-> | [-> | [-> | ->]]]]]; reflexivity.
Qed.

Lemma C10_active_truthiness_witness :
  exists w2 row,
    import_workflow_to_db N8N_DB
      (VDict [(str "active", VStr (str "yes"))]) single_world
    = (Ret true, w2)
    /\ rows_of w2 = rows_of single_world ++ [row]
    /\ row_active row = 1.
Proof.
  destruct (C10_active_truthiness single_world (working_db []) []
              [(str "active", VStr (str "yes"))]
              (SqlText (str "Untitled Workflow")) (VStr (str "yes")))
    as (w2 & row & H1 & H2 & H3 & _);
    try (vm_compute; reflexivity).
  exists w2, row. repeat split; auto.
Defined.

(* ================================================================== *)
(** * Further properties of the script *)

(** [load_workflow] (lines 13-16) changes nothing but the record of
    opened files, and the value it returns is well formed: strings of
    code points without a joined surrogate pair left apart, and dicts
    with distinct keys. *)
Theorem load_workflow_value_well_formed
        (f : text) (w w1 : World) (v : pyval) :
  load_workflow f w = (Ret v, w1) ->
  wf_val v = true /\ w1 = opened_world f w /\ loads w f = Some v.
Proof.
  rewrite load_workflow_spec. intros H. injection H as Hload <-.
  split; [| split; [reflexivity | apply load_outcome_loads, Hload]].
  unfold load_outcome in Hload.
  destruct (w_files w f) as [units|]; [| discriminate].
  destruct (forallb is_scalar units) eqn:Hs; [| discriminate].
  destruct (json_loads units) as [v' r | | |] eqn:Hj; try discriminate.
  injection Hload as <-. exact (json_loads_wf units v' r Hj Hs).
Qed.

Lemma load_workflow_value_well_formed_witness :
  wf_val test_workflow = true
  /\ opened_world (str "b-workflow.json") single_world
     = opened_world (str "b-workflow.json") single_world
  /\ loads single_world (str "b-workflow.json") = Some test_workflow.
Proof.
  apply (load_workflow_value_well_formed (str "b-workflow.json")
           single_world _ test_workflow).
  vm_compute. reflexivity.
Defined.

(** Whatever the fields of an imported file hold, the nodes and
    connections texts of its row (lines 34-35) are JSON that parses back
    to the field's value, or to the empty list or dict when the field is
    absent. *)
Theorem stored_texts_parse_back
        (f : text) (w w1 w2 : World) (v : pyval) :
  load_workflow f w = (Ret v, w1) ->
  import_workflow_to_db N8N_DB v w1 = (Ret true, w2) ->
  exists d row,
    v = VDict d /\ rows_of w2 = rows_of w ++ [row]
    /\ json_loads (row_nodes row)
       = POk (dict_get d (str "nodes") (VList [])) []
    /\ json_loads (row_connections row)
       = POk (dict_get d (str "connections") (VDict [])) [].
Proof.
  intros Hload Hrun.
  apply load_workflow_value_well_formed in Hload as (Hwf & -> & _).
  apply import_true_inv in Hrun
    as (d & db & rows & nm & -> & Hdb & _ & Htab & _ & _ & _ & ->).
  exists d, (workflow_row db rows d nm (w_clock w)).
  split; [reflexivity |].
  rewrite rows_of_imported.
  cbn [opened_world w_db] in Hdb.
  rewrite (rows_of_table w db rows Hdb Htab).
  split; [reflexivity |].
  cbn [workflow_row row_nodes row_connections].
  assert (Hget : forall k default,
             wf_val default = true -> wf_val (dict_get d k default) = true).
  { intros k default Hdef. unfold dict_get.
    destruct (dict_lookup k d) as [x|] eqn:Hk; [| exact Hdef].
    exact (wf_val_lookup d k x Hwf Hk). }
  split; apply json_loads_dumps, Hget; reflexivity.
Qed.

Lemma stored_texts_parse_back_witness :
  exists d row,
    test_workflow = VDict d
    /\ rows_of (snd (import_workflow_to_db N8N_DB test_workflow
                       (opened_world (str "b-workflow.json") single_world)))
       = rows_of single_world ++ [row]
    /\ json_loads (row_nodes row)
       = POk (dict_get d (str "nodes") (VList [])) []
    /\ json_loads (row_connections row)
       = POk (dict_get d (str "connections") (VDict [])) [].
Proof.
  apply (stored_texts_parse_back (str "b-workflow.json") single_world
           (opened_world (str "b-workflow.json") single_world)).
  - vm_compute. reflexivity.
  - vm_compute. reflexivity.
Defined.

(** [import_workflow_to_db] when the database file is absent (lines
    21-24): it prints its two lines and returns False, without trying to
    connect. *)
Theorem import_database_missing (w : World) (v : pyval) :
  w_db w = None ->
  import_workflow_to_db N8N_DB v w
  = (Ret false,
     add_trace (add_stdout w [PDbMissing; PMakeSure]) [EvExists false]).
Proof.
  intros Hdb. run_monad.
  cbn [w_dir w_files w_db w_clock w_stdout w_trace]. rewrite Hdb.
  cbn [negb w_dir w_files w_db w_clock w_stdout w_trace].
  unfold add_trace, add_stdout.
  cbn [w_dir w_files w_db w_clock w_stdout w_trace].
  rewrite Hdb, <- app_assoc. reflexivity.
Qed.

(** A world without the database file. *)
Definition no_database_world : World :=
  {| w_dir := w_dir sample_world; w_files := sample_files; w_db := None;
     w_clock := 0; w_stdout := []; w_trace := [] |}.

Lemma import_database_missing_witness :
  import_workflow_to_db N8N_DB test_workflow no_database_world
  = (Ret false,
     add_trace (add_stdout no_database_world [PDbMissing; PMakeSure])
               [EvExists false]).
Proof. apply (import_database_missing no_database_world). reflexivity. Defined.

(** [import_workflow_to_db] never lets an exception out (lines 26-53):
    it returns True or False; the directory and the files are as before;
    and when it returns False the table is as before. *)
Theorem import_never_raises (v : pyval) (w : World) :
  exists b w',
    import_workflow_to_db N8N_DB v w = (Ret b, w')
    /\ w_dir w' = w_dir w /\ w_files w' = w_files w
    /\ (b = false -> rows_of w' = rows_of w).
Proof.
  destruct (import_facts v w)
    as (b & w' & Hrun & (Hdir & Hfiles & _) & (new & Hrows & Hlen) & _).
  exists b, w'. repeat split; auto.
  intros ->. destruct new; [| discriminate].
  rewrite Hrows. apply List.app_nil_r.
Qed.

(** [import_workflow_to_db] returns True exactly when the value is a
    dict, the database file exists and opens, the table exists, the name
    binds, the table takes the row and the commit succeeds (lines
    26-49). *)
Theorem import_succeeds_iff (v : pyval) (w : World) :
  (exists w2, import_workflow_to_db N8N_DB v w = (Ret true, w2))
  <-> exists d db rows nm,
        v = VDict d /\ w_db w = Some db /\ db_opens db = true
        /\ db_table db = Some rows /\ db_commits db = true
        /\ bind_param (workflow_name d) = inr nm
        /\ db_admits db rows (workflow_row db rows d nm (w_clock w)) = true.
Proof.
  split.
  - intros (w2 & Hrun).
    apply import_true_inv in Hrun
      as (d & db & rows & nm & H1 & H2 & H3 & H4 & H5 & H6 & H7 & _).
    exists d, db, rows, nm. repeat split; assumption.
  - intros (d & db & rows & nm & -> & H2 & H3 & H4 & H5 & H6 & H7).
    eexists. apply (import_success w db rows d nm); assumption.
Qed.

(** A successful import (lines 30-46): the row gets the same instant as
    createdAt and updatedAt, and the line printed carries the name read
    from the file and the identifier of the new row, read back from the
    database. *)
Theorem imported_row_details (v : pyval) (w w2 : World) :
  import_workflow_to_db N8N_DB v w = (Ret true, w2) ->
  exists d row,
    v = VDict d /\ rows_of w2 = rows_of w ++ [row]
    /\ row_createdAt row = w_clock w /\ row_updatedAt row = w_clock w
    /\ w_stdout w2 = w_stdout w ++ [PImported (workflow_name d) (row_id row)].
Proof.
  intros Hrun.
  apply import_true_inv in Hrun
    as (d & db & rows & nm & -> & Hdb & _ & Htab & _ & _ & _ & ->).
  exists d, (workflow_row db rows d nm (w_clock w)).
  rewrite rows_of_imported, (rows_of_table w db rows Hdb Htab).
  repeat split.
Qed.

Lemma imported_row_details_witness :
  exists d row,
    test_workflow = VDict d
    /\ rows_of (snd (import_workflow_to_db N8N_DB test_workflow single_world))
       = rows_of single_world ++ [row]
    /\ row_createdAt row = w_clock single_world
    /\ row_updatedAt row = w_clock single_world
    /\ w_stdout (snd (import_workflow_to_db N8N_DB test_workflow single_world))
       = w_stdout single_world ++ [PImported (workflow_name d) (row_id row)].
Proof.
  apply (imported_row_details test_workflow single_world).
  vm_compute. reflexivity.
Defined.

(** A name that [sqlite3] cannot bind (lines 33, 38-41, 51-53): the
    error of the binding is printed, the import returns False and the
    table is as before. *)
Theorem import_unbindable_name
        (w : World) (db : Database) (rows : list Row) (d : dict) (e : exn) :
  w_db w = Some db -> db_opens db = true -> db_table db = Some rows ->
  bind_param (workflow_name d) = inl e ->
  exists w',
    import_workflow_to_db N8N_DB (VDict d) w = (Ret false, w')
    /\ rows_of w' = rows_of w
    /\ w_stdout w' = w_stdout w ++ [PErrorImporting e].
Proof.
  intros Hdb Hopen Htab Hbind. unfold workflow_name in Hbind. run_monad.
  repeat (cbn [w_dir w_files w_db w_clock w_stdout w_trace negb];
          rewrite ?Hdb, ?Hopen, ?Htab, ?Hbind).
  eexists. split; [reflexivity |]. unfold rows_of.
  cbn [w_dir w_files w_db w_clock w_stdout w_trace]. rewrite Hdb, Htab.
  split; reflexivity.
Qed.

Lemma import_unbindable_name_witness :
  exists w',
    import_workflow_to_db N8N_DB
      (VDict [(str "name", VList [VStr (str "a")])]) single_world
    = (Ret false, w')
    /\ rows_of w' = rows_of single_world
    /\ w_stdout w' = w_stdout single_world ++ [PErrorImporting EProgrammingError].
Proof.
  apply (import_unbindable_name single_world (working_db []) []);
    reflexivity.
Defined.

(** A file that does not load (lines 81-86): the loop prints one line
    with the file's name and the error, keeps the count, and goes on
    without calling [import_workflow_to_db]: the database is not looked
    at. *)
Theorem loop_body_load_failure (f : text) (c : Z) (w : World) :
  in_model w f = true -> loads w f = None ->
  exists e,
    loop_body f c w
    = (Ret c, add_trace (add_stdout w [PFailedToProcess f e]) [EvOpen f])
    /\ (w_files w f = None -> e = EOSError).
Proof.
  intros Hmodel Hloads.
  destruct (load_outcome w f) as [v | e |] eqn:Hload.
  - apply load_outcome_loads in Hload. congruence.
  - exists e. split; [exact (loop_body_failed f c w e Hload) |].
    intros Hnone. unfold load_outcome in Hload. rewrite Hnone in Hload.
    congruence.
  - exfalso. exact (load_outcome_unmodelled w f Hmodel Hload).
Qed.

Lemma loop_body_load_failure_witness :
  exists e,
    loop_body (str "c-workflow.json") 0 sample_world
    = (Ret 0,
       add_trace (add_stdout sample_world
                    [PFailedToProcess (str "c-workflow.json") e])
                 [EvOpen (str "c-workflow.json")])
    /\ (w_files sample_world (str "c-workflow.json") = None -> e = EOSError).
Proof.
  apply (loop_body_load_failure (str "c-workflow.json") 0 sample_world);
    vm_compute; reflexivity.
Defined.

(** The closing report (lines 79-89): in every run that passes the two
    checks, whatever the database does, the count printed is the number
    of rows the run appended, and every discovered file got exactly one
    line: an error line or, with a new row, a success line. *)
Theorem report_counts_rows (w : World) (f : text) (files : list text) :
  sorted (glob w) = f :: files ->
  w_db w <> None ->
  forallb (in_model w) (f :: files) = true ->
  exists w' new out,
    main w = (Ret 0, w')
    /\ rows_of w' = rows_of w ++ new
    /\ w_stdout w' = out ++ report (Z.of_nat (List.length new))
    /\ (count_file_errors (w_stdout w') + List.length new
        = count_file_errors (w_stdout w) + List.length (f :: files))%nat.
Proof.
  intros Hfiles Hdb Hmodel.
  destruct (main_facts w f files Hfiles Hdb Hmodel)
    as (c & w2 & Hmain & _ & _ & (new & Hrows & Hc & Hout) & _).
  exists (add_stdout w2 (report c)), new, (w_stdout w2).
  split; [exact Hmain |]. split; [exact Hrows |].
  unfold add_stdout. cbn [w_stdout]. rewrite Hc. split; [reflexivity |].
  rewrite count_file_errors_app.
  change (count_file_errors (report (Z.of_nat (List.length new)))) with 0%nat.
  lia.
Qed.

Lemma report_counts_rows_witness :
  exists w' new out,
    main failing_world = (Ret 0, w')
    /\ rows_of w' = rows_of failing_world ++ new
    /\ w_stdout w' = out ++ report (Z.of_nat (List.length new))
    /\ (count_file_errors (w_stdout w') + List.length new
        = count_file_errors (w_stdout failing_world) + 4)%nat.
Proof.
  apply (report_counts_rows failing_world (str "a-workflow.json")
           [str "b-workflow.json"; str "c-workflow.json";
            str "d-workflow.json"]).
  - vm_compute. reflexivity.
  - discriminate.
  - vm_compute. reflexivity.
Defined.

(** [main] (lines 55-98) only ever appends: after any run the rows that
    were in the table are still there, in place and unchanged, and the
    directory and the files are as before. *)
Theorem main_only_appends (w : World) :
  forallb (in_model w) (sorted (glob w)) = true ->
  exists s w' new,
    main w = (Ret s, w')
    /\ rows_of w' = rows_of w ++ new
    /\ w_dir w' = w_dir w /\ w_files w' = w_files w.
Proof.
  intros Hmodel.
  destruct (sorted (glob w)) as [|f files] eqn:Hfiles.
  - eexists 1, _, []. rewrite (main_no_files w Hfiles).
    rewrite List.app_nil_r. repeat split.
  - destruct (w_db w) as [db|] eqn:Hdb.
    + destruct (main_facts w f files Hfiles) as
        (c & w2 & Hmain & _ & (Hdir & Hf & _) & (new & Hrows & _) & _);
        [congruence | exact Hmodel |].
      eexists 0, _, new. rewrite Hmain. repeat split; assumption.
    + eexists 1, _, []. rewrite (main_no_database w f files Hfiles Hdb).
      rewrite List.app_nil_r. repeat split.
Qed.

Lemma main_only_appends_witness :
  exists s w' new,
    main sample_world = (Ret s, w')
    /\ rows_of w' = rows_of sample_world ++ new
    /\ w_dir w' = w_dir sample_world /\ w_files w' = w_files sample_world.
Proof. apply (main_only_appends sample_world). vm_compute. reflexivity. Defined.
